(** * SaveInterestingFilesModule: a shallow embedding and its properties

    The module under study ([SaveInterestingFilesModule.cpp], The Sleuth Kit
    framework) copies the files and directories that were flagged as
    "interesting" to an output folder, one sub-folder per interesting file
    set, and writes one XML report per set.

    The embedding follows the C++ source function by function.  Calls into
    the framework and into Poco (file manager, image database, blackboard,
    file system) are the fields of the record [Services]; the effects of the
    module are recorded as a trace of [Event]s, and C++ exceptions are a
    result constructor of a small state-and-exception monad. *)

From Stdlib Require Import List String Ascii NArith Arith Lia Bool.
From Stdlib Require Import DecimalString OrderedTypeEx Sorted.
From Stdlib Require DecimalPos DecimalN.
Import ListNotations.
Open Scope string_scope.

Set Implicit Arguments.

(** ** Strings *)

(** [operator<<] on an unsigned integer: its decimal digits. *)
Definition decimal (n : N) : string :=
  NilEmpty.string_of_uint (N.to_uint n).

(** [std::string::rfind] for a one-character needle: the position of the last
    occurrence, [None] standing for [std::string::npos]. *)
Fixpoint rfind (c : ascii) (s : string) : option nat :=
  match s with
  | EmptyString => None
  | String a s' =>
      match rfind c s' with
      | Some pos => Some (S pos)
      | None => if Ascii.eqb a c then Some 0 else None
      end
  end.

(** [s.insert(pos, t)].  The source only calls it with a position returned by
    [rfind], hence within [s]; past the end (where C++ throws
    [std::out_of_range]) the model appends. *)
Fixpoint insert (pos : nat) (t s : string) : string :=
  match pos, s with
  | 0, _ => t ++ s
  | S _, EmptyString => t
  | S pos', String a s' => String a (insert pos' t s')
  end.

(** [s.c_str()] read back as a C string: the characters before the first
    NUL.  On a string without NUL (any string that was built from a C string,
    as the names kept in the image database are) it is the identity. *)
Fixpoint c_str (s : string) : string :=
  match s with
  | EmptyString => EmptyString
  | String a s' => if Ascii.eqb a zero then EmptyString else String a (c_str s')
  end.

(** [std::string::operator<], the order of [std::map] and [std::multimap]
    keyed by strings: lexicographic on the character codes. *)
Definition string_lt (s1 s2 : string) : Prop := String.compare s1 s2 = Lt.

(** ** Data of the framework *)

(** [TskModule::Status]. *)
Inductive Status := OK | FAIL | STOP.

(** The part of a [TskFile] the module reads, one field per getter.  File
    ids are [uint64_t]; they are only printed, so [N] stands for them. *)
Record TskFile := mkFile {
  getId : N;
  getName : string;
  getMetaType : N;
  getUniquePath : string;
  getHashMD5 : string
}.

(** [TskBlackboardAttribute]. *)
Record TskBlackboardAttribute := mkAttr {
  getAttributeTypeID : N;
  getValueString : string;
  getContext : string
}.

(** [TskBlackboardArtifact]. *)
Record TskBlackboardArtifact := mkArtifact {
  getArtifactID : N;
  getObjectID : N;
  getAttributes : list TskBlackboardAttribute
}.

(** Poco DOM nodes, as far as the report uses them. *)
#[warnings="-register-all"]
Inductive Node :=
| Element (tagName : string) (attributes : list (string * string))
          (childNodes : list Node)
| Text (data : string).

(** A [Poco::XML::Document] is the list of its child nodes; the report's root
    element is its first child. *)
Definition Document := list Node.

(** [parent->appendChild(child)]. *)
Definition appendChild (parent child : Node) : Node :=
  match parent with
  | Element tag attrs children => Element tag attrs (children ++ [child])
  | Text _ => parent
  end.

Fixpoint setAttr (name value : string) (attrs : list (string * string))
  : list (string * string) :=
  match attrs with
  | [] => [(name, value)]
  | (n, v) :: attrs' =>
      if String.eqb n name then (name, value) :: attrs'
      else (n, v) :: setAttr name value attrs'
  end.

(** [element->setAttribute(name, value)]. *)
Definition setAttribute (element : Node) (name value : string) : Node :=
  match element with
  | Element tag attrs children => Element tag (setAttr name value attrs) children
  | Text _ => element
  end.

Definition children (n : Node) : list Node :=
  match n with
  | Element _ _ cs => cs
  | Text _ => []
  end.

Definition tag (n : Node) : string :=
  match n with
  | Element t _ _ => t
  | Text _ => ""
  end.

(** The entries of a report: the children of its root element. *)
Definition entries (report : Document) : list Node :=
  match report with
  | root :: _ => children root
  | [] => []
  end.

(** ** Effects *)

(** What the module does to the outside world, in the order it does it. *)
Inductive Event :=
| CreatedDir (path : string)
| CopiedFile (fileId : N) (path : string)
| WroteReport (path : string) (report : Document)
| LogError (msg : string)
| LogInfo (msg : string).

(** The exceptions in play: the framework's [TskException] and Poco's. *)
Inductive Exn :=
| TskException (msg : string)
| PocoException (msg : string).

(** Answer of an external call: completion, or failure with a message. *)
Inductive Answer (A : Type) :=
| Done (a : A)
| Failed (msg : string).
Arguments Failed {A} msg.

(** The collaborators of the module.  Whether a file-system call succeeds is
    up to the environment and may depend on everything that happened so far.
    The two enumeration constants come from framework headers.
    [literalAddress] is what a narrow stream prints for the wide string
    literal of [createDirectory]: the address of the literal, in the format
    of the C++ library. *)
Record Services := mkServices {
  separator : string;                          (* Poco::Path::separator() *)
  outputFolderPath : string;                   (* set by initialize() *)
  literalAddress : string;                     (* operator<< on a wide literal *)
  TSK_SET_NAME : N;
  TSK_FS_META_TYPE_DIR : N;
  getFile : N -> Answer TskFile;               (* file manager; may throw *)
  getFileRecords : N -> Answer (list N);       (* file ids WHERE par_file_id = id *)
  getArtifacts : list TskBlackboardArtifact;   (* TSK_INTERESTING_FILE_HIT artifacts *)
  createDirectories : list Event -> string -> Answer unit;
  copyFile : list Event -> N -> string -> Answer unit;
  openFileStream : list Event -> string -> Answer unit
}.

(** The state the module's functions work on: the trace, the XML document of
    the set being saved ([report] in [saveFiles] and its helpers) and the
    [returnCode] of [report()], which [saveFiles] receives by reference. *)
Record State := mkState {
  events : list Event;
  reportDoc : Document;
  returnCode : Status
}.

(** Outcome of running a piece of code: normal completion, an exception in
    flight, or the recursion budget of the model used up (a directory tree
    deeper than the budget, or a cyclic parent relation). *)
Inductive Result (A : Type) :=
| Normal (a : A)
| Throw (e : Exn)
| OutOfFuel.
Arguments Throw {A} e.
Arguments OutOfFuel {A}.

Definition M (A : Type) : Type := State -> State * Result A.

Definition ret {A} (a : A) : M A := fun st => (st, Normal a).

Definition bind {A B} (m : M A) (k : A -> M B) : M B :=
  fun st =>
    match m st with
    | (st', Normal a) => k a st'
    | (st', Throw e) => (st', Throw e)
    | (st', OutOfFuel) => (st', OutOfFuel)
    end.

Declare Scope monad_scope.
Delimit Scope monad_scope with monad.
Notation "x <- m ;; k" := (bind m (fun x => k))
  (at level 61, m at next level, right associativity) : monad_scope.
Notation "m ;; k" := (bind m (fun _ => k))
  (at level 61, right associativity) : monad_scope.
Open Scope monad_scope.

(** A [for] loop over a container. *)
Fixpoint forEach {A} (l : list A) (body : A -> M unit) : M unit :=
  match l with
  | [] => ret tt
  | x :: l' => body x ;; forEach l' body
  end.

(** [try { body } catch (TskException &ex) { handler }]. *)
Definition tryCatch (body : M unit) (handler : string -> M unit) : M unit :=
  fun st =>
    match body st with
    | (st', Throw (TskException msg)) => handler msg st'
    | out => out
    end.

Definition emit (ev : Event) : M unit :=
  fun st => (mkState (events st ++ [ev]) (reportDoc st) (returnCode st), Normal tt).

Definition setReturnCode (rc : Status) : M unit :=
  fun st => (mkState (events st) (reportDoc st) rc, Normal tt).

Definition setReport (doc : Document) : M unit :=
  fun st => (mkState (events st) doc (returnCode st), Normal tt).

Definition throw {A} (e : Exn) : M A := fun st => (st, Throw e).

(** ** The containers of [report()] *)

(** [std::map<std::string, std::string>]: sorted by key, one entry per key. *)
Definition FileSets := list (string * string).

(** [std::multimap<std::string, TskBlackboardArtifact>]: sorted by key, equal
    keys in insertion order. *)
Definition FileSetHits := list (string * TskBlackboardArtifact).

(** [std::map::insert]: an existing key keeps its value. *)
Fixpoint map_insert (k v : string) (m : FileSets) : FileSets :=
  match m with
  | [] => [(k, v)]
  | (k', v') :: m' =>
      match String.compare k k' with
      | Lt => (k, v) :: m
      | Eq => m
      | Gt => (k', v') :: map_insert k v m'
      end
  end.

(** [std::multimap::insert]: after the entries whose key is not greater. *)
Fixpoint multimap_insert (k : string) (v : TskBlackboardArtifact)
  (m : FileSetHits) : FileSetHits :=
  match m with
  | [] => [(k, v)]
  | (k', v') :: m' =>
      if String.ltb k k' then (k, v) :: m
      else (k', v') :: multimap_insert k v m'
  end.

(** [std::multimap::equal_range], as the list the iterator range runs over. *)
Definition equal_range (k : string) (m : FileSetHits) : FileSetHits :=
  filter (fun hit => String.eqb (fst hit) k) m.

(** ** The module *)

Section Implementation.

Variable E : Services.

Let sep : string := separator E.

Definition isDirectory (file : TskFile) : bool :=
  N.eqb (getMetaType file) (TSK_FS_META_TYPE_DIR E).

(** Text of the exception thrown by [createDirectory].  The source writes a
    wide string literal to a narrow [std::stringstream], which prints the
    address of the literal and not its characters; then come the output
    folder path, whatever directory was being created, and Poco's message. *)
Definition createDirectoryMessage (pocoMessage : string) : string :=
  literalAddress E ++ outputFolderPath E ++ "' : " ++ pocoMessage.

(** Helper function to create a directory.  Throws a [TskException] on
    failure. *)
Definition createDirectory (path : string) : M unit :=
  fun st =>
    match createDirectories E (events st) path with
    | Done _ => emit (CreatedDir path) st
    | Failed msg => throw (TskException (createDirectoryMessage msg)) st
    end.

(** [TskServices::Instance().getFileManager().getFile(id)]. *)
Definition fileManager_getFile (id : N) : M TskFile :=
  match getFile E id with
  | Done file => ret file
  | Failed msg => throw (TskException msg)
  end.

(** [TskServices::Instance().getImgDB().getFileRecords(condition)] for the
    condition "WHERE par_file_id = <parent>"; the ids of the records. *)
Definition imgDB_getFileRecords (parent : N) : M (list N) :=
  match getFileRecords E parent with
  | Done fileRecs => ret fileRecs
  | Failed msg => throw (TskException msg)
  end.

(** [TskServices::Instance().getFileManager().copyFile(file, path)]. *)
Definition fileManager_copyFile (id : N) (path : string) : M unit :=
  fun st =>
    match copyFile E (events st) id path with
    | Done _ => emit (CopiedFile id path) st
    | Failed msg => throw (TskException msg) st
    end.

Definition LOGERROR (msg : string) : M unit := emit (LogError msg).
Definition LOGINFO (msg : string) : M unit := emit (LogInfo msg).

(** The element [addFileToReport] builds for a file saved at [filePath]. *)
Definition fileElement (file : TskFile) (filePath : string) : Node :=
  let fileElement :=
    if isDirectory file then Element "SavedDirectory" [] []
    else Element "SavedFile" [] [] in
  let savedPathElement := appendChild (Element "Path" [] []) (Text filePath) in
  let fileElement := appendChild fileElement savedPathElement in
  let originalPathElement :=
    appendChild (Element "OriginalPath" [] []) (Text (getUniquePath file)) in
  let fileElement := appendChild fileElement originalPathElement in
  if negb (isDirectory file) then
    let md5HashElement :=
      appendChild (Element "MD5" [] []) (Text (getHashMD5 file)) in
    appendChild fileElement md5HashElement
  else fileElement.

(** Helper function to add a saved file or directory to a saved files
    report: the new element becomes the last child of the report's root.
    [saveFiles] puts the root in the document before any call; a document
    without root, where the source would dereference a null pointer, is
    left as it is. *)
Definition addFileToReport (file : TskFile) (filePath : string) : M unit :=
  fun st =>
    match reportDoc st with
    | reportRoot :: rest =>
        setReport (appendChild reportRoot (fileElement file filePath) :: rest) st
    | [] => ret tt st
    end.

(** Helper function to recursively write out the contents of a directory.
    Throws [TskException] on failure.  The recursion follows the parent
    relation of the image database, so it is bounded by [fuel]. *)
Fixpoint saveDirectoryContents (fuel : nat) (dirPath : string) (dir : TskFile)
  : M unit :=
  match fuel with
  | 0 => fun st => (st, OutOfFuel)
  | S fuel' =>
      fileRecs <- imgDB_getFileRecords (getId dir) ;;
      forEach fileRecs (fun fileRec =>
        file <- fileManager_getFile fileRec ;;
        if isDirectory file then
          let subDirPath := dirPath ++ sep ++ getName file in
          createDirectory subDirPath ;;
          saveDirectoryContents fuel' subDirPath file
        else
          let filePath := dirPath ++ sep ++ getName file in
          fileManager_copyFile (getId file) filePath ;;
          addFileToReport file filePath)
  end.

(** Helper function to save the contents of an interesting directory to the
    output folder.  Throws [TskException] on failure. *)
Definition saveInterestingDirectory (fuel : nat) (dir : TskFile)
  (fileSetFolderPath : string) : M unit :=
  let path :=
    fileSetFolderPath ++ sep ++ getName dir ++ "_" ++ decimal (getId dir)
      ++ sep ++ getName dir in
  createDirectory path ;;
  addFileToReport dir path ;;
  saveDirectoryContents fuel path dir.

(** Helper function to save the contents of an interesting file to the
    output folder.  Throws [TskException] on failure. *)
Definition saveInterestingFile (file : TskFile) (fileSetFolderPath : string)
  : M unit :=
  let fileName := getName file in
  let id := "_" ++ decimal (getId file) in
  let fileName :=
    match rfind "."%char fileName with
    | Some (S pos) => insert (S pos) id fileName
    | _ => fileName ++ id
    end in
  let filePath := c_str fileSetFolderPath ++ sep ++ c_str fileName in
  fileManager_copyFile (getId file) filePath ;;
  addFileToReport file filePath.

(** The body of the [try] block of [saveFiles]: fetch the file of a hit and
    save it as a directory or as a file. *)
Definition saveFileHit (fuel : nat) (fileSetFolderPath : string)
  (fileHit : string * TskBlackboardArtifact) : M unit :=
  file <- fileManager_getFile (getObjectID (snd fileHit)) ;;
  if isDirectory file then saveInterestingDirectory fuel file fileSetFolderPath
  else saveInterestingFile file fileSetFolderPath.

(** The loop of [saveFiles] over the hits of the set. *)
Definition saveFileHits (fuel : nat) (fileSetFolderPath : string)
  (fileSetHitsRange : FileSetHits) : M unit :=
  forEach fileSetHitsRange (fun fileHit =>
    tryCatch (saveFileHit fuel fileSetFolderPath fileHit)
      (fun msg => LOGERROR msg ;; setReturnCode FAIL)).

(** [Poco::FileStream reportFile(path); writer.writeNode(reportFile, report)].
    A stream that cannot be opened throws a Poco exception. *)
Definition writeReport (path : string) : M unit :=
  fun st =>
    match openFileStream E (events st) path with
    | Done _ => emit (WroteReport path (reportDoc st)) st
    | Failed msg => throw (PocoException msg) st
    end.

(** Helper function to save the files corresponding to the file set hit
    artifacts for a specified interesting files set. *)
Definition saveFiles (fuel : nat) (setName setDescription : string)
  (fileSetHitsRange : FileSetHits) : M unit :=
  let reportRoot := Element "InterestingFileSet" [] [] in
  let reportRoot := setAttribute reportRoot "name" setName in
  let reportRoot := setAttribute reportRoot "description" setDescription in
  setReport [reportRoot] ;;
  let fileSetFolderPath := outputFolderPath E ++ sep ++ setName in
  createDirectory fileSetFolderPath ;;
  saveFileHits fuel fileSetFolderPath fileSetHitsRange ;;
  writeReport (fileSetFolderPath ++ sep ++ setName ++ ".xml").

(** *** Grouping the hits by set name *)

(** The local variables of the grouping loop of [report()]. *)
Record Grouping := mkGrouping {
  fileSets : FileSets;
  fileSetHits : FileSetHits;
  errors : list string
}.

(** The inner loop over the attributes of one artifact; the boolean is
    [setNameFound]. *)
Definition groupAttribute (fileHit : TskBlackboardArtifact)
  (acc : FileSets * FileSetHits * bool) (attr : TskBlackboardAttribute)
  : FileSets * FileSetHits * bool :=
  let '(sets, hits, setNameFound) := acc in
  if N.eqb (getAttributeTypeID attr) (TSK_SET_NAME E) then
    (map_insert (getValueString attr) (getContext attr) sets,
     multimap_insert (getValueString attr) fileHit hits,
     true)
  else acc.

Definition missingSetNameMessage (fileHit : TskBlackboardArtifact) : string :=
  "SaveInterestingFilesModule failed to find set name TSK_SET_NAME for TSK_INTERESTING_FILE_HIT artifact with id "
    ++ decimal (getArtifactID fileHit).

(** One iteration of the outer loop. *)
Definition groupArtifact (g : Grouping) (fileHit : TskBlackboardArtifact)
  : Grouping :=
  let '(sets, hits, setNameFound) :=
    fold_left (groupAttribute fileHit) (getAttributes fileHit)
      (fileSets g, fileSetHits g, false) in
  mkGrouping sets hits
    (if setNameFound then errors g
     else errors g ++ [missingSetNameMessage fileHit]).

Definition groupArtifacts (fileSetHitArtifacts : list TskBlackboardArtifact)
  : Grouping :=
  fold_left groupArtifact fileSetHitArtifacts (mkGrouping [] [] []).

(** The loop of [report()] over the file sets. *)
Definition saveFileSets (fuel : nat) (sets : FileSets) (hits : FileSetHits)
  : M unit :=
  forEach sets (fun fileSet =>
    let fileSetHitsRange := equal_range (fst fileSet) hits in
    saveFiles fuel (fst fileSet) (snd fileSet) fileSetHitsRange).

(** The [try] block of [report()].  The grouping loop touches the trace
    only to log the hits without a set name, so these errors are emitted
    together once the containers are built. *)
Definition reportBody (fuel : nat) : M unit :=
  createDirectory (outputFolderPath E) ;;
  let g := groupArtifacts (getArtifacts E) in
  forEach (errors g) LOGERROR ;;
  saveFileSets fuel (fileSets g) (fileSetHits g).

(** Module execution function: saves interesting files recorded on the
    blackboard to the output directory.  It starts from the trace [history]
    and gives the final trace and what the call does: return a status, let
    an exception escape, or not finish within [fuel]. *)
Definition report (fuel : nat) (history : list Event)
  : list Event * Result Status :=
  let body :=
    LOGINFO "SaveInterestingFilesModule save operations started" ;;
    tryCatch (reportBody fuel)
      (fun msg => LOGERROR msg ;; setReturnCode FAIL) ;;
    LOGINFO "SaveInterestingFilesModule save operations finished" in
  match body (mkState history [] OK) with
  | (st, Normal _) => (events st, Normal (returnCode st))
  | (st, Throw e) => (events st, Throw e)
  | (st, OutOfFuel) => (events st, OutOfFuel)
  end.

End Implementation.

(** * Properties *)

(** ** Strings *)

Definition hasChar (c : ascii) (s : string) : Prop :=
  In c (list_ascii_of_string s).

(** A string that can be read back from a C string. *)
Definition nulFree (s : string) : Prop := ~ hasChar zero s.

Lemma string_app_assoc (s t u : string) : (s ++ t) ++ u = s ++ t ++ u.
Proof. induction s as [|a s IH]; simpl; congruence. Qed.

Lemma string_app_length (s t : string) :
  String.length (s ++ t) = String.length s + String.length t.
Proof. induction s as [|a s IH]; simpl; congruence. Qed.

Lemma string_app_inv_head (s t u : string) : s ++ t = s ++ u -> t = u.
Proof. induction s as [|a s IH]; simpl; intros H; auto. injection H. auto. Qed.

Lemma string_app_nil_r (s : string) : s ++ "" = s.
Proof. induction s as [|a s IH]; simpl; congruence. Qed.

Lemma hasChar_app c s t : hasChar c (s ++ t) <-> hasChar c s \/ hasChar c t.
Proof.
  unfold hasChar. induction s as [|a s IH]; simpl.
  - tauto.
  - rewrite IH. tauto.
Qed.

Lemma c_str_nulFree s : nulFree s -> c_str s = s.
Proof.
  unfold nulFree, hasChar. induction s as [|a s IH]; simpl; intros H; auto.
  destruct (Ascii.eqb_spec a zero) as [->|_].
  - exfalso. apply H. now left.
  - f_equal. apply IH. intros Hin. apply H. now right.
Qed.

Lemma rfind_None c s : rfind c s = None <-> ~ hasChar c s.
Proof.
  unfold hasChar. induction s as [|a s IH]; simpl.
  - tauto.
  - destruct (rfind c s) as [pos|].
    + split; [discriminate|]. intros H. exfalso.
      destruct IH as [_ IH']. enough (Some pos = None) by discriminate.
      apply IH'. tauto.
    + destruct (Ascii.eqb_spec a c) as [->|Hne].
      * split; [discriminate|]. intros H. exfalso. apply H. now left.
      * split; auto. intros _ [Heq|Hin]; [congruence|].
        destruct IH as [IH' _]. now apply IH'.
Qed.

Lemma rfind_last c stem ext :
  ~ hasChar c ext ->
  rfind c (stem ++ String c ext) = Some (String.length stem).
Proof.
  intros Hext. apply rfind_None in Hext.
  induction stem as [|a stem IH]; simpl.
  - rewrite Hext. now rewrite Ascii.eqb_refl.
  - now rewrite IH.
Qed.

Lemma insert_length stem t rest :
  insert (String.length stem) t (stem ++ rest) = stem ++ t ++ rest.
Proof.
  induction stem as [|a stem IH]; simpl.
  - now destruct rest.
  - now rewrite IH.
Qed.

Lemma string_of_uint_nulFree d : nulFree (NilEmpty.string_of_uint d).
Proof.
  unfold nulFree, hasChar.
  induction d; simpl; try tauto; intros [H|H]; try discriminate; tauto.
Qed.

Lemma decimal_nulFree n : nulFree (decimal n).
Proof. apply string_of_uint_nulFree. Qed.

Lemma nulFree_app s t : nulFree s -> nulFree t -> nulFree (s ++ t).
Proof. unfold nulFree. rewrite hasChar_app. tauto. Qed.

Lemma nulFree_app_inv s t : nulFree (s ++ t) -> nulFree s /\ nulFree t.
Proof. unfold nulFree. rewrite hasChar_app. tauto. Qed.

(** ** The naming rule of [saveInterestingFile], in the words of its
    comments: the id goes before the '.' of a conventional extension, and to
    the end of a name that has no '.' or whose only '.' is the initial one. *)
Inductive SavedName (n : string) (i : N) : string -> Prop :=
| saved_extension stem ext :
    n = stem ++ "." ++ ext -> ~ hasChar "."%char ext -> stem <> "" ->
    SavedName n i (stem ++ "_" ++ decimal i ++ "." ++ ext)
| saved_hidden ext :
    n = "." ++ ext -> ~ hasChar "."%char ext ->
    SavedName n i (n ++ "_" ++ decimal i)
| saved_plain :
    ~ hasChar "."%char n ->
    SavedName n i (n ++ "_" ++ decimal i).

(** Every name falls under one of the three cases. *)
Lemma split_last_dot n :
  ~ hasChar "."%char n \/
  exists stem ext, n = stem ++ "." ++ ext /\ ~ hasChar "."%char ext.
Proof.
  induction n as [|a n IH].
  - left. unfold hasChar. simpl. tauto.
  - destruct IH as [Hno | (stem & ext & -> & Hext)].
    + destruct (Ascii.eqb_spec a "."%char) as [->|Hne].
      * right. exists "", n. split; auto.
      * left. unfold hasChar in *. simpl. intros [H|H]; [congruence|tauto].
    + right. exists (String a stem), ext. split; auto.
Qed.

Lemma SavedName_total n i : exists saved, SavedName n i saved.
Proof.
  destruct (split_last_dot n) as [Hno | (stem & ext & Hn & Hext)].
  - eexists. now apply saved_plain.
  - destruct stem as [|a stem].
    + eexists. eapply saved_hidden; eauto.
    + eexists. eapply saved_extension; eauto. discriminate.
Qed.

Section Naming.

Variable E : Services.

(** The file name computed by [saveInterestingFile] obeys the rule. *)
Lemma saved_name_rule n i saved :
  SavedName n i saved ->
  match rfind "."%char n with
  | Some (S pos) => insert (S pos) ("_" ++ decimal i) n
  | _ => n ++ "_" ++ decimal i
  end = saved.
Proof.
  intros [stem ext Hn Hext Hstem | ext Hn Hext | Hno].
  - subst n. change (stem ++ "." ++ ext) with (stem ++ String "." ext).
    rewrite rfind_last by assumption.
    destruct stem as [|a stem]; [congruence|].
    cbv beta iota delta [String.length]; fold String.length.
    change (S (String.length stem)) with (String.length (String a stem)).
    rewrite insert_length. reflexivity.
  - rewrite Hn at 1. change ("." ++ ext) with ("" ++ String "." ext).
    rewrite rfind_last by assumption. reflexivity.
  - apply rfind_None in Hno. now rewrite Hno.
Qed.

Lemma SavedName_nulFree n i saved :
  nulFree n -> SavedName n i saved -> nulFree saved.
Proof.
  intros Hn [stem ext -> Hext Hstem | ext _ Hext | Hno].
  - apply nulFree_app_inv in Hn as [Hs Hr].
    apply nulFree_app_inv in Hr as [Hd He].
    repeat apply nulFree_app; auto using decimal_nulFree.
    unfold nulFree, hasChar; simpl; intros [H|H]; [discriminate|tauto].
  - repeat apply nulFree_app; auto using decimal_nulFree.
    unfold nulFree, hasChar; simpl; intros [H|H]; [discriminate|tauto].
  - repeat apply nulFree_app; auto using decimal_nulFree.
    unfold nulFree, hasChar; simpl; intros [H|H]; [discriminate|tauto].
Qed.

(** C4. A top-level file named [n] with id [i] is saved under the set folder
    with "_<i>" inserted right before the last '.' of [n], or appended to [n]
    when that '.' is the first character of [n] or [n] has no '.': the copy
    is requested at that path, and on success the copy and the report entry
    carry it.  Names and paths are C strings. *)
Theorem saveInterestingFile_name :
  forall (file : TskFile) (fileSetFolderPath : string) (st : State),
    nulFree (getName file) -> nulFree fileSetFolderPath ->
    (exists saved, SavedName (getName file) (getId file) saved) /\
    forall saved,
      SavedName (getName file) (getId file) saved ->
      let filePath := fileSetFolderPath ++ separator E ++ saved in
      saveInterestingFile E file fileSetFolderPath st =
      match copyFile E (events st) (getId file) filePath with
      | Done _ =>
          addFileToReport E file filePath
            (mkState (events st ++ [CopiedFile (getId file) filePath])
                     (reportDoc st) (returnCode st))
      | Failed msg => (st, Throw (TskException msg))
      end.
Proof.
  intros file folder st Hname Hfolder. split.
  - apply SavedName_total.
  - intros saved Hsaved filePath.
    unfold saveInterestingFile.
    rewrite (saved_name_rule Hsaved).
    rewrite (c_str_nulFree Hfolder).
    rewrite (c_str_nulFree (SavedName_nulFree Hname Hsaved)).
    fold filePath. unfold bind, fileManager_copyFile, emit, throw.
    destruct (copyFile E (events st) (getId file) filePath); reflexivity.
Qed.

End Naming.

(** ** What an export adds to the trace and to the report *)

(** The entries [ents] added at the end of the report's root element. *)
Definition addEntries (doc : Document) (ents : list Node) : Document :=
  match doc with
  | Element t attrs cs :: rest => Element t attrs (cs ++ ents) :: rest
  | _ => doc
  end.

Lemma addEntries_nil doc : addEntries doc [] = doc.
Proof.
  destruct doc as [|[t attrs cs|d] rest]; simpl; auto.
  now rewrite app_nil_r.
Qed.

Lemma addEntries_app doc e1 e2 :
  addEntries (addEntries doc e1) e2 = addEntries doc (e1 ++ e2).
Proof.
  destruct doc as [|[t attrs cs|d] rest]; simpl; auto.
  now rewrite app_assoc.
Qed.

(** Any event but the writing of a report. *)
Definition quiet (ev : Event) : Prop :=
  match ev with
  | WroteReport _ _ => False
  | _ => True
  end.

(** [st'] is [st] with the events [evs], none of them the writing of a
    report, and the report entries [ents] added, and the same return code. *)
Definition Effects (evs : list Event) (ents : list Node) (st st' : State)
  : Prop :=
  events st' = (events st ++ evs)%list /\
  reportDoc st' = addEntries (reportDoc st) ents /\
  returnCode st' = returnCode st /\
  Forall quiet evs.

Lemma Effects_refl st : Effects [] [] st st.
Proof.
  unfold Effects. now rewrite app_nil_r, addEntries_nil.
Qed.

Lemma Effects_trans evs1 ents1 evs2 ents2 st st1 st2 :
  Effects evs1 ents1 st st1 -> Effects evs2 ents2 st1 st2 ->
  Effects (evs1 ++ evs2)%list (ents1 ++ ents2)%list st st2.
Proof.
  intros (He1 & Hd1 & Hr1 & Hq1) (He2 & Hd2 & Hr2 & Hq2). unfold Effects.
  rewrite He2, He1, Hd2, Hd1, Hr2, Hr1, addEntries_app, app_assoc.
  repeat split; auto. apply Forall_app; auto.
Qed.

(** A loop whose iterations all complete normally completes normally. *)
Lemma forEach_success {A} (l : list A) (body : A -> M unit) :
  (forall x st, In x l -> snd (body x st) = Normal tt) ->
  forall st, snd (forEach l body st) = Normal tt.
Proof.
  induction l as [|a l IH]; intros Hb st; simpl; auto.
  unfold bind. specialize (Hb a st (or_introl eq_refl)) as Ha.
  destruct (body a st) as [s [[]|e|]]; simpl in *; try discriminate.
  apply IH. intros; apply Hb; now right.
Qed.

Section Saving.

Variable E : Services.

Let sep : string := separator E.

(** One entity materialised by the recursive descent into a directory: a
    subdirectory created at [path], or a file copied to [path]. *)
Inductive Saved :=
| SavedDir (path : string) (dir : TskFile)
| SavedFile (path : string) (file : TskFile).

(** The event a materialised entity leaves in the trace. *)
Definition eventOf (s : Saved) : Event :=
  match s with
  | SavedDir path _ => CreatedDir path
  | SavedFile path file => CopiedFile (getId file) path
  end.

(** The report entries it leaves: none for a subdirectory, one for a file. *)
Definition entryOf (s : Saved) : list Node :=
  match s with
  | SavedDir _ _ => []
  | SavedFile path file => [fileElement E file path]
  end.

(** [PlainPath dirPath p path f]: the entity [f] lies below the directory
    with id [p] in the image database, and [path] is [dirPath] followed by
    the names, as they are, of the directories on the way down and of [f]. *)
Inductive PlainPath : string -> N -> string -> TskFile -> Prop :=
| plain_child dirPath p fileRecs fileRec f :
    getFileRecords E p = Done fileRecs -> In fileRec fileRecs ->
    getFile E fileRec = Done f ->
    PlainPath dirPath p (dirPath ++ sep ++ getName f) f
| plain_nested dirPath p fileRecs fileRec d path f :
    getFileRecords E p = Done fileRecs -> In fileRec fileRecs ->
    getFile E fileRec = Done d ->
    isDirectory E d = true ->
    PlainPath (dirPath ++ sep ++ getName d) (getId d) path f ->
    PlainPath dirPath p path f.

(** A materialised entity of the descent from directory [p] saved at
    [dirPath]: a directory or a file of the database, at its plain path. *)
Definition Nested (dirPath : string) (p : N) (s : Saved) : Prop :=
  match s with
  | SavedDir path d => isDirectory E d = true /\ PlainPath dirPath p path d
  | SavedFile path f => isDirectory E f = false /\ PlainPath dirPath p path f
  end.

(** [m] only materialises entities that satisfy [Q], whatever its outcome,
    and the only exceptions it lets escape are [TskException]s. *)
Definition Materialises {A} (Q : Saved -> Prop) (m : M A) : Prop :=
  forall st,
    (exists items,
       Effects (map eventOf items) (flat_map entryOf items) st (fst (m st)) /\
       Forall Q items) /\
    (forall e, snd (m st) = Throw e -> exists msg, e = TskException msg).

Lemma Materialises_weaken {A} (Q Q' : Saved -> Prop) (m : M A) :
  (forall s, Q s -> Q' s) -> Materialises Q m -> Materialises Q' m.
Proof.
  intros HQ Hm st. destruct (Hm st) as ((items & He & Hi) & Hx).
  split; auto. exists items. split; auto. eapply Forall_impl; eauto.
Qed.

Ltac no_items :=
  split; [exists []; split; [apply Effects_refl | constructor]
         | simpl; try discriminate].

Lemma Materialises_ret {A} Q (a : A) : Materialises Q (ret a).
Proof. intros st. no_items. Qed.

Lemma Materialises_bind {A B} Q (m : M A) (k : A -> M B) :
  Materialises Q m -> (forall a, Materialises Q (k a)) ->
  Materialises Q (bind m k).
Proof.
  intros Hm Hk st. destruct (Hm st) as ((i1 & He1 & Hi1) & Hx1).
  unfold bind. destruct (m st) as [st1 [a| e |]]; simpl in *.
  - destruct (Hk a st1) as ((i2 & He2 & Hi2) & Hx2). split; auto.
    exists (i1 ++ i2)%list. rewrite map_app, flat_map_app. split.
    + eapply Effects_trans; eauto.
    + apply Forall_app; auto.
  - split; [exists i1; auto | intros e0 [= <-]; now apply Hx1].
  - split; [exists i1; auto | discriminate].
Qed.

Lemma Materialises_forEach {A} Q (l : list A) (body : A -> M unit) :
  (forall x, In x l -> Materialises Q (body x)) ->
  Materialises Q (forEach l body).
Proof.
  induction l as [|x l IH]; intros Hbody; simpl.
  - apply Materialises_ret.
  - apply Materialises_bind.
    + apply Hbody. now left.
    + intros _. apply IH. intros y Hy. apply Hbody. now right.
Qed.

Lemma Materialises_getFile {A} Q id (k : TskFile -> M A) :
  (forall f, getFile E id = Done f -> Materialises Q (k f)) ->
  Materialises Q (bind (fileManager_getFile E id) k).
Proof.
  intros Hk st. unfold bind, fileManager_getFile.
  destruct (getFile E id) as [f|msg] eqn:Hf; simpl.
  - now apply Hk.
  - no_items. intros e [= <-]. eauto.
Qed.

Lemma Materialises_getFileRecords {A} Q p (k : list N -> M A) :
  (forall fileRecs, getFileRecords E p = Done fileRecs ->
                    Materialises Q (k fileRecs)) ->
  Materialises Q (bind (imgDB_getFileRecords E p) k).
Proof.
  intros Hk st. unfold bind, imgDB_getFileRecords.
  destruct (getFileRecords E p) as [fileRecs|msg] eqn:Hp; simpl.
  - now apply Hk.
  - no_items. intros e [= <-]. eauto.
Qed.

Lemma Materialises_createDirectory (Q : Saved -> Prop) path d :
  Q (SavedDir path d) -> Materialises Q (createDirectory E path).
Proof.
  intros HQ st. unfold createDirectory, emit, throw.
  destruct (createDirectories E (events st) path); simpl.
  - split; [|discriminate].
    exists [SavedDir path d]. split; [|now repeat constructor].
    unfold Effects; simpl. rewrite addEntries_nil. repeat constructor.
  - no_items. intros e [= <-]. eauto.
Qed.

Lemma addFileToReport_spec file filePath st :
  addFileToReport E file filePath st =
  (mkState (events st) (addEntries (reportDoc st) [fileElement E file filePath])
           (returnCode st), Normal tt).
Proof.
  unfold addFileToReport, setReport, ret.
  destruct st as [evs [|[t attrs cs|d] rest] rc]; reflexivity.
Qed.

Lemma Materialises_copy (Q : Saved -> Prop) path f :
  Q (SavedFile path f) ->
  Materialises Q (fileManager_copyFile E (getId f) path ;;
                  addFileToReport E f path).
Proof.
  intros HQ st. unfold bind, fileManager_copyFile, emit, throw.
  destruct (copyFile E (events st) (getId f) path); simpl.
  - rewrite addFileToReport_spec. simpl. split; [|discriminate].
    exists [SavedFile path f]. split; [|now repeat constructor].
    unfold Effects; simpl. repeat constructor.
  - no_items. intros e [= <-]. eauto.
Qed.

(** One iteration of the loop of [saveDirectoryContents], [recurse] being
    the recursive call. *)
Lemma descent_step_materialises (recurse : string -> TskFile -> M unit)
  dirPath p fileRecs fileRec :
  getFileRecords E p = Done fileRecs -> In fileRec fileRecs ->
  (forall subDirPath d, Materialises (Nested subDirPath (getId d))
                          (recurse subDirPath d)) ->
  Materialises (Nested dirPath p)
    (file <- fileManager_getFile E fileRec ;;
     if isDirectory E file then
       createDirectory E (dirPath ++ sep ++ getName file) ;;
       recurse (dirPath ++ sep ++ getName file) file
     else
       fileManager_copyFile E (getId file) (dirPath ++ sep ++ getName file) ;;
       addFileToReport E file (dirPath ++ sep ++ getName file)).
Proof.
  intros Hrecs Hin IH.
  apply Materialises_getFile. intros f Hf.
  destruct (isDirectory E f) eqn:Hd.
  - apply Materialises_bind.
    + apply Materialises_createDirectory with (d := f).
      split; auto. eapply plain_child; eauto.
    + intros _. eapply Materialises_weaken; [|apply IH].
      intros [path d|path g] [Hk Hp]; (split; [exact Hk|]);
        eapply plain_nested; eauto.
  - apply Materialises_copy. split; auto. eapply plain_child; eauto.
Qed.

(** Whatever its outcome, the descent into a directory only creates
    subdirectories and copies files of the database at their plain paths,
    and adds one report entry per copied file. *)
Lemma saveDirectoryContents_materialises fuel :
  forall dirPath dir,
    Materialises (Nested dirPath (getId dir))
      (saveDirectoryContents E fuel dirPath dir).
Proof.
  induction fuel as [|fuel IH]; intros dirPath dir; simpl.
  - intros st. no_items.
  - apply Materialises_getFileRecords. intros fileRecs Hp.
    apply Materialises_forEach. intros fileRec Hin.
    now apply descent_step_materialises with (fileRecs := fileRecs).
Qed.

(** *** Completeness of the descent *)

(** [st'] continues [st]: more events, more entries, same return code. *)
Definition Grows (st st' : State) : Prop :=
  exists evs ents, Effects evs ents st st'.

Lemma Grows_refl st : Grows st st.
Proof. exists [], []. apply Effects_refl. Qed.

Lemma Grows_trans st1 st2 st3 : Grows st1 st2 -> Grows st2 st3 -> Grows st1 st3.
Proof.
  intros (e1 & n1 & H1) (e2 & n2 & H2).
  eexists _, _. eapply Effects_trans; eauto.
Qed.

Lemma Materialises_Grows {A} Q (m : M A) st :
  Materialises Q m -> Grows st (fst (m st)).
Proof.
  intros Hm. destruct (Hm st) as ((items & He & _) & _). eexists _, _; eauto.
Qed.

(** The event [ev] happened between [st] and [st']. *)
Definition Between (ev : Event) (st st' : State) : Prop :=
  exists evs1 evs2, events st' = (events st ++ evs1 ++ ev :: evs2)%list.

Lemma Between_before ev st s1 s2 :
  Grows st s1 -> Between ev s1 s2 -> Between ev st s2.
Proof.
  intros (e & n & He & _) (e1 & e2 & Hb).
  exists (e ++ e1)%list, e2. rewrite Hb, He. now rewrite !app_assoc.
Qed.

Lemma Between_after ev st s1 s2 :
  Between ev st s1 -> Grows s1 s2 -> Between ev st s2.
Proof.
  intros (e1 & e2 & Hb) (e & n & He & _).
  exists e1, (e2 ++ e)%list. rewrite He, Hb.
  now rewrite <- !app_assoc, <- app_comm_cons.
Qed.

Lemma forEach_Grows {A} (l : list A) (body : A -> M unit) :
  (forall x st, In x l -> Grows st (fst (body x st))) ->
  forall st, Grows st (fst (forEach l body st)).
Proof.
  induction l as [|a l IH]; intros Hb st; simpl.
  - apply Grows_refl.
  - unfold bind. specialize (Hb a st (or_introl eq_refl)) as Ha.
    destruct (body a st) as [s [[]|e|]]; simpl in *; auto.
    eapply Grows_trans; [exact Ha|]. apply IH. intros; apply Hb; now right.
Qed.

(** In a loop that completes normally every iteration completed normally. *)
Lemma forEach_Normal_inv {A} (l : list A) (body : A -> M unit) :
  (forall x st, In x l -> Grows st (fst (body x st))) ->
  forall st st', forEach l body st = (st', Normal tt) ->
  forall x, In x l ->
  exists s1 s2, Grows st s1 /\ body x s1 = (s2, Normal tt) /\ Grows s2 st'.
Proof.
  induction l as [|a l IH]; intros Hb st st' Hrun x Hin; [contradiction|].
  simpl in Hrun. unfold bind in Hrun.
  specialize (Hb a st (or_introl eq_refl)) as Ha.
  destruct (body a st) as [s [[]|e|]] eqn:Hbody; try discriminate.
  simpl in Ha. destruct Hin as [->|Hin].
  - exists st, s. split; [apply Grows_refl|]. split; [exact Hbody|].
    replace st' with (fst (forEach l body s)) by now rewrite Hrun.
    apply forEach_Grows. intros; apply Hb; now right.
  - destruct (IH (fun y s0 Hy => Hb y s0 (or_intror Hy)) s st' Hrun x Hin)
      as (s1 & s2 & Hg1 & Hx & Hg2).
    exists s1, s2. split; [eapply Grows_trans; eauto|]. auto.
Qed.

(** The entity found at [path] in the database, as a materialised one. *)
Definition item (path : string) (f : TskFile) : Saved :=
  if isDirectory E f then SavedDir path f else SavedFile path f.

(** A descent that completes normally has materialised everything below the
    directory. *)
Lemma saveDirectoryContents_complete fuel :
  forall dirPath dir st st',
    saveDirectoryContents E fuel dirPath dir st = (st', Normal tt) ->
    forall path f,
      PlainPath dirPath (getId dir) path f ->
      Between (eventOf (item path f)) st st'.
Proof.
  induction fuel as [|fuel IH]; intros dirPath dir st st' Hrun path f Hpath;
    [discriminate|].
  simpl in Hrun. unfold bind at 1, imgDB_getFileRecords in Hrun.
  destruct (getFileRecords E (getId dir)) as [recs|msg] eqn:Hrecs;
    [|discriminate].
  simpl in Hrun.
  assert (Hstep : forall x s, In x recs ->
            Grows s (fst ((file <- fileManager_getFile E x ;;
              if isDirectory E file then
                createDirectory E (dirPath ++ sep ++ getName file) ;;
                saveDirectoryContents E fuel (dirPath ++ sep ++ getName file) file
              else
                fileManager_copyFile E (getId file) (dirPath ++ sep ++ getName file) ;;
                addFileToReport E file (dirPath ++ sep ++ getName file)) s))).
  { intros x s Hx. eapply Materialises_Grows.
    apply descent_step_materialises with (p := getId dir) (fileRecs := recs);
      auto.
    intros; apply saveDirectoryContents_materialises. }
  inversion Hpath
    as [dp p fileRecs fileRec f0 Hp Hin Hget
       | dp p fileRecs fileRec d path0 f0 Hp Hin Hget Hd Hsub];
    subst; rewrite Hrecs in Hp; injection Hp as <-.
  - destruct (forEach_Normal_inv _ _ Hstep _ Hrun _ Hin)
      as (s1 & s2 & Hg1 & Hbody & Hg2).
    eapply Between_before; [exact Hg1|]. eapply Between_after; [|exact Hg2].
    unfold bind at 1, fileManager_getFile in Hbody. rewrite Hget in Hbody.
    simpl in Hbody. unfold item.
    destruct (isDirectory E f) eqn:Hd.
    + unfold bind, createDirectory, emit, throw in Hbody.
      destruct (createDirectories E (events s1) _); [|discriminate].
      match type of Hbody with
      | saveDirectoryContents E fuel ?q f ?s = _ =>
          pose proof (Materialises_Grows s
                        (saveDirectoryContents_materialises fuel q f)) as Hg
      end.
      rewrite Hbody in Hg. destruct Hg as (e & n & He & _). simpl in He.
      exists [], e. rewrite He. simpl. now rewrite <- app_assoc.
    + unfold bind, fileManager_copyFile, emit, throw in Hbody.
      destruct (copyFile E (events s1) _ _); [|discriminate].
      rewrite addFileToReport_spec in Hbody. injection Hbody as <-.
      exists [], []. reflexivity.
  - destruct (forEach_Normal_inv _ _ Hstep _ Hrun _ Hin)
      as (s1 & s2 & Hg1 & Hbody & Hg2).
    eapply Between_before; [exact Hg1|]. eapply Between_after; [|exact Hg2].
    unfold bind at 1, fileManager_getFile in Hbody. rewrite Hget in Hbody.
    simpl in Hbody. rewrite Hd in Hbody.
    unfold bind, createDirectory, emit, throw in Hbody.
    destruct (createDirectories E (events s1) _); [|discriminate].
    apply (IH _ _ _ _ Hbody) in Hsub.
    eapply Between_before; [|exact Hsub].
    exists [CreatedDir (dirPath ++ sep ++ getName d)], [].
    unfold Effects; simpl. rewrite addEntries_nil. repeat constructor.
Qed.

(** *** Saving an interesting directory *)

(** Where [saveInterestingDirectory] puts a directory of a file set. *)
Definition directoryTarget (dir : TskFile) (fileSetFolderPath : string)
  : string :=
  fileSetFolderPath ++ sep ++ getName dir ++ "_" ++ decimal (getId dir)
    ++ sep ++ getName dir.

Lemma saveInterestingDirectory_items fuel dir fileSetFolderPath st :
  let path := directoryTarget dir fileSetFolderPath in
  let out := saveInterestingDirectory E fuel dir fileSetFolderPath st in
  match createDirectories E (events st) path with
  | Failed msg =>
      out = (st, Throw (TskException (createDirectoryMessage E msg)))
  | Done _ =>
      exists items,
        Effects (CreatedDir path :: map eventOf items)
                (fileElement E dir path :: flat_map entryOf items)
                st (fst out) /\
        Forall (Nested path (getId dir)) items /\
        (snd out = Normal tt ->
         forall p f, PlainPath path (getId dir) p f ->
                     In (eventOf (item p f)) (map eventOf items))
  end.
Proof.
  intros path out. subst out.
  unfold saveInterestingDirectory. fold sep. fold (directoryTarget dir fileSetFolderPath).
  fold path.
  destruct (createDirectories E (events st) path) as [[]|msg] eqn:Hmk;
    [|unfold bind, createDirectory, throw; now rewrite Hmk].
  unfold bind, createDirectory, emit. rewrite Hmk.
  rewrite addFileToReport_spec. simpl.
  match goal with
  | |- context [saveDirectoryContents E fuel path dir ?s] => set (st1 := s)
  end.
  destruct (saveDirectoryContents_materialises fuel path dir st1)
    as ((items & He & Hn) & _).
  exists items. split; [|split; [exact Hn|]].
  - assert (H0 : Effects [CreatedDir path] [fileElement E dir path] st st1)
      by (unfold Effects; simpl; repeat constructor).
    apply (Effects_trans H0 He).
  - intros Hnormal p f Hp.
    destruct (saveDirectoryContents E fuel path dir st1) as [st2 r] eqn:Hrun.
    simpl in Hnormal. subst r.
    eapply saveDirectoryContents_complete in Hp; [|exact Hrun].
    destruct Hp as (e1 & e2 & Hb).
    destruct He as (He & _). simpl in He. rewrite Hb in He.
    apply app_inv_head in He. rewrite <- He.
    apply in_or_app. right. now left.
Qed.

Lemma fileElement_directory dir path :
  isDirectory E dir = true ->
  fileElement E dir path =
  Element "SavedDirectory" []
    [Element "Path" [] [Text path];
     Element "OriginalPath" [] [Text (getUniquePath dir)]].
Proof. intros H. unfold fileElement. now rewrite H. Qed.

Lemma fileElement_file f path :
  isDirectory E f = false ->
  fileElement E f path =
  Element "SavedFile" []
    [Element "Path" [] [Text path];
     Element "OriginalPath" [] [Text (getUniquePath f)];
     Element "MD5" [] [Text (getHashMD5 f)]].
Proof. intros H. unfold fileElement. now rewrite H. Qed.


(** *** The loop over the hits of a set *)

(** A helper of [saveFiles]: it only adds events and report entries, leaves
    the return code alone, and throws nothing but [TskException]. *)
Definition Helper {A} (m : M A) : Prop :=
  forall st,
    Grows st (fst (m st)) /\
    (forall e, snd (m st) = Throw e -> exists msg, e = TskException msg).

Lemma Materialises_Helper {A} Q (m : M A) : Materialises Q m -> Helper m.
Proof.
  intros Hm st. split; [eapply Materialises_Grows; eauto|].
  now destruct (Hm st).
Qed.

Lemma Helper_bind {A B} (m : M A) (k : A -> M B) :
  Helper m -> (forall a, Helper (k a)) -> Helper (bind m k).
Proof.
  intros Hm Hk st. destruct (Hm st) as (Hg & Hx). unfold bind.
  destruct (m st) as [st1 [a|e|]]; simpl in *.
  - destruct (Hk a st1) as (Hg2 & Hx2). split; auto.
    eapply Grows_trans; eauto.
  - split; auto. intros e0 [= <-]. now apply Hx.
  - split; auto. discriminate.
Qed.

Lemma Helper_addFileToReport file path : Helper (addFileToReport E file path).
Proof.
  intros st. rewrite addFileToReport_spec. simpl. split; [|discriminate].
  exists [], [fileElement E file path]. unfold Effects; simpl.
  rewrite app_nil_r. repeat constructor.
Qed.

Lemma Helper_saveInterestingDirectory fuel dir folder :
  Helper (saveInterestingDirectory E fuel dir folder).
Proof.
  unfold saveInterestingDirectory. apply Helper_bind.
  - apply Materialises_Helper with (Q := fun _ => True).
    now apply Materialises_createDirectory with (d := dir).
  - intros _. apply Helper_bind; [apply Helper_addFileToReport|].
    intros _. eapply Materialises_Helper.
    apply saveDirectoryContents_materialises.
Qed.

Lemma Helper_saveInterestingFile file folder :
  Helper (saveInterestingFile E file folder).
Proof.
  unfold saveInterestingFile.
  apply Materialises_Helper with (Q := fun _ => True).
  now apply Materialises_copy.
Qed.

Lemma Helper_saveFileHit fuel folder hit :
  Helper (saveFileHit E fuel folder hit).
Proof.
  unfold saveFileHit. apply Helper_bind.
  - intros st. unfold fileManager_getFile.
    destruct (getFile E (getObjectID (snd hit))); simpl.
    + split; [apply Grows_refl | discriminate].
    + split; [apply Grows_refl | intros e [= <-]; eauto].
  - intros f. destruct (isDirectory E f).
    + apply Helper_saveInterestingDirectory.
    + apply Helper_saveInterestingFile.
Qed.

(** The state in which the loop goes on after the [catch] block of
    [saveFiles] handled the exception of a hit that ended in [st]. *)
Definition caught (st : State) (msg : string) : State :=
  mkState (events st ++ [LogError msg]) (reportDoc st) FAIL.

Lemma saveFileHits_cons fuel folder hit hits st :
  saveFileHits E fuel folder (hit :: hits) st =
  match saveFileHit E fuel folder hit st with
  | (st1, Normal _) => saveFileHits E fuel folder hits st1
  | (st1, Throw (TskException msg)) =>
      saveFileHits E fuel folder hits (caught st1 msg)
  | (st1, Throw e) => (st1, Throw e)
  | (st1, OutOfFuel) => (st1, OutOfFuel)
  end.
Proof.
  unfold saveFileHits at 1. simpl. unfold bind at 1, tryCatch.
  destruct (saveFileHit E fuel folder hit st) as [st1 [[]|[msg|msg]|]];
    reflexivity.
Qed.

Lemma saveFileHits_app fuel folder l1 l2 st :
  saveFileHits E fuel folder (l1 ++ l2)%list st =
  match saveFileHits E fuel folder l1 st with
  | (st1, Normal _) => saveFileHits E fuel folder l2 st1
  | out => out
  end.
Proof.
  revert st. induction l1 as [|h l1 IH]; intros st.
  - reflexivity.
  - rewrite <- app_comm_cons, !saveFileHits_cons.
    destruct (saveFileHit E fuel folder h st) as [st1 [[]|[msg|msg]|]]; auto.
Qed.

(** The loop adds events and entries, never removes any; it lets no
    exception escape; once a hit failed, the return code is [FAIL]. *)
Lemma saveFileHits_grows fuel folder hits :
  forall st,
    let out := saveFileHits E fuel folder hits st in
    (exists evs ents,
       events (fst out) = (events st ++ evs)%list /\
       reportDoc (fst out) = addEntries (reportDoc st) ents /\
       Forall quiet evs) /\
    (snd out = Normal tt \/ snd out = OutOfFuel) /\
    (returnCode st = FAIL -> returnCode (fst out) = FAIL).
Proof.
  induction hits as [|h hits IH]; intros st; cbv zeta.
  - simpl. split; [|auto]. exists [], [].
    now rewrite app_nil_r, addEntries_nil.
  - rewrite saveFileHits_cons.
    destruct (Helper_saveFileHit fuel folder h st)
      as ((e1 & n1 & He1 & Hd1 & Hr1 & Hq1) & Hx).
    destruct (saveFileHit E fuel folder h st) as [st1 [[]|e|]]; simpl in *.
    + destruct (IH st1) as ((e2 & n2 & He2 & Hd2 & Hq2) & Hres & Hrc).
      split; [|split; [exact Hres|]].
      * exists (e1 ++ e2)%list, (n1 ++ n2)%list.
        rewrite He2, Hd2, He1, Hd1, addEntries_app, app_assoc.
        repeat split; auto. apply Forall_app; auto.
      * intros Hf. apply Hrc. congruence.
    + destruct (Hx e eq_refl) as (msg & ->).
      destruct (IH (caught st1 msg))
        as ((e2 & n2 & He2 & Hd2 & Hq2) & Hres & Hrc).
      split; [|split; [exact Hres|]].
      * exists (e1 ++ LogError msg :: e2)%list, (n1 ++ n2)%list.
        rewrite He2, Hd2. simpl. rewrite He1, Hd1, addEntries_app.
        rewrite <- !app_assoc. repeat split; auto.
        apply Forall_app. split; auto. constructor; simpl; auto.
      * intros _. now apply Hrc.
    + split; [|split; [auto|congruence]].
      exists e1, n1. auto.
Qed.

(** What each hit added to the report is part of the report at the end of
    the loop. *)
Lemma saveFileHits_keeps fuel folder l1 h l2 st s1 :
  saveFileHits E fuel folder l1 st = (s1, Normal tt) ->
  exists added pre post,
    reportDoc (fst (saveFileHit E fuel folder h s1))
      = addEntries (reportDoc s1) added /\
    reportDoc (fst (saveFileHits E fuel folder (l1 ++ h :: l2)%list st))
      = addEntries (reportDoc st) (pre ++ added ++ post)%list.
Proof.
  intros H1.
  destruct (saveFileHits_grows fuel folder l1 st)
    as ((e0 & pre & _ & Hpre & _) & _).
  rewrite H1 in Hpre. simpl in Hpre.
  rewrite saveFileHits_app, H1, saveFileHits_cons.
  destruct (Helper_saveFileHit fuel folder h s1)
    as ((e1 & added & _ & Hd1 & _) & Hx).
  exists added, pre.
  destruct (saveFileHit E fuel folder h s1) as [s2 [[]|e|]]; simpl in *.
  - destruct (saveFileHits_grows fuel folder l2 s2)
      as ((e2 & post & _ & Hd2 & _) & _).
    exists post. split; auto.
    rewrite Hd2, Hd1, Hpre, !addEntries_app. reflexivity.
  - destruct (Hx e eq_refl) as (msg & ->).
    destruct (saveFileHits_grows fuel folder l2 (caught s2 msg))
      as ((e2 & post & _ & Hd2 & _) & _).
    exists post. split; auto.
    rewrite Hd2. simpl. rewrite Hd1, Hpre, !addEntries_app. reflexivity.
  - exists []. split; auto. simpl.
    rewrite Hd1, Hpre, !addEntries_app, app_nil_r. reflexivity.
Qed.

(** C3. When the export of a hit throws (from [saveFileHit] itself or from
    any depth of the descent into a directory), the exception is caught in
    the loop of [saveFiles]: the error is logged, the return code becomes
    [FAIL] and stays so, and the loop goes on with the next hit from the
    state the failed hit left.  No exception escapes the loop, and what each
    hit of the set added to the report, before or after the failing one, is
    in the report at the end of the loop. *)
Theorem saveFileHits_isolates_failure :
  forall (fuel : nat) (folder : string) (before after : FileSetHits)
         (hit : string * TskBlackboardArtifact) (st st1 st2 : State)
         (msg : string),
    saveFileHits E fuel folder before st = (st1, Normal tt) ->
    saveFileHit E fuel folder hit st1 = (st2, Throw (TskException msg)) ->
    let out := saveFileHits E fuel folder (before ++ hit :: after)%list st in
    out = saveFileHits E fuel folder after
            (mkState (events st2 ++ [LogError msg]) (reportDoc st2) FAIL) /\
    (snd out = Normal tt \/ snd out = OutOfFuel) /\
    returnCode (fst out) = FAIL /\
    (forall l1 h l2 s1,
        (before ++ hit :: after = l1 ++ h :: l2)%list ->
        saveFileHits E fuel folder l1 st = (s1, Normal tt) ->
        exists added pre post,
          reportDoc (fst (saveFileHit E fuel folder h s1))
            = addEntries (reportDoc s1) added /\
          reportDoc (fst out) = addEntries (reportDoc st) (pre ++ added ++ post)%list).
Proof.
  intros fuel folder before after hit st st1 st2 msg Hbefore Hhit out.
  assert (Hout : out = saveFileHits E fuel folder after (caught st2 msg)).
  { subst out. now rewrite saveFileHits_app, Hbefore, saveFileHits_cons, Hhit. }
  split; [exact Hout|]. split; [|split].
  - apply saveFileHits_grows.
  - rewrite Hout. now apply saveFileHits_grows.
  - intros l1 h l2 s1 Hsplit Hl1. subst out. rewrite Hsplit.
    now apply saveFileHits_keeps.
Qed.

(** *** Where the hits of a set are saved *)

(** An event of the export of the hits of a set to [folder]: an error
    logged; a directory created at the target of a directory of the set, or
    below that target; a file copied below such a target or, for a file of
    the set, into the folder itself.  No report is written and nothing else
    is logged. *)
Definition HitEvent (folder : string) (ev : Event) : Prop :=
  match ev with
  | CreatedDir path => exists dir rest, path = directoryTarget dir folder ++ rest
  | CopiedFile _ path =>
      (exists dir rest, path = directoryTarget dir folder ++ rest) \/
      (exists name, path = c_str folder ++ sep ++ name)
  | LogError _ => True
  | WroteReport _ _ | LogInfo _ => False
  end.

Lemma PlainPath_extends dirPath p path f :
  PlainPath dirPath p path f -> exists rest, path = dirPath ++ rest.
Proof.
  induction 1 as [dirPath p recs c f _ _ _
                 | dirPath p recs c d path f _ _ _ _ _ IH].
  - eexists; reflexivity.
  - destruct IH as (rest & ->). exists (sep ++ getName d ++ rest).
    now rewrite !string_app_assoc.
Qed.

(** The target of a directory of the set, and all that lies below it, is
    not the folder of the set. *)
Lemma HitEvent_not_folder folder : ~ HitEvent folder (CreatedDir folder).
Proof.
  intros (dir & rest & Heq). apply (f_equal String.length) in Heq.
  unfold directoryTarget in Heq. rewrite !string_app_length in Heq.
  simpl in Heq. lia.
Qed.

Lemma saveFileHit_events fuel folder hit st :
  exists evs ents,
    Effects evs ents st (fst (saveFileHit E fuel folder hit st)) /\
    Forall (HitEvent folder) evs.
Proof.
  unfold saveFileHit, bind at 1, fileManager_getFile.
  destruct (getFile E (getObjectID (snd hit))) as [f|msg]; simpl.
  2: { exists [], []. split; [apply Effects_refl | constructor]. }
  destruct (isDirectory E f) eqn:Hkind.
  - pose proof (saveInterestingDirectory_items fuel f folder st) as Hi.
    cbv zeta in Hi.
    destruct (createDirectories E (events st) (directoryTarget f folder)).
    + destruct Hi as (items & He & Hn & _).
      eexists _, _. split; [exact He|].
      constructor.
      * exists f, "". now rewrite string_app_nil_r.
      * apply Forall_map. eapply Forall_impl; [|exact Hn].
        intros [path d|path g] [_ Hp];
          apply PlainPath_extends in Hp as (rest & ->); simpl; eauto.
    + rewrite Hi. simpl.
      exists [], []. split; [apply Effects_refl | constructor].
  - unfold saveInterestingFile, bind, fileManager_copyFile, emit, throw.
    destruct (copyFile E (events st) (getId f) _); simpl.
    + rewrite addFileToReport_spec. simpl.
      eexists [_], [_]. split.
      * unfold Effects; simpl. repeat split; auto. repeat constructor.
      * constructor; [|constructor]. simpl. right. eexists. reflexivity.
    + exists [], []. split; [apply Effects_refl | constructor].
Qed.

(** The loop over the hits of a set adds nothing but such events. *)
Lemma saveFileHits_events fuel folder hits :
  forall st,
    let out := saveFileHits E fuel folder hits st in
    exists evs ents,
      events (fst out) = (events st ++ evs)%list /\
      reportDoc (fst out) = addEntries (reportDoc st) ents /\
      Forall (HitEvent folder) evs.
Proof.
  induction hits as [|h hits IH]; intros st; cbv zeta.
  - simpl. exists [], []. now rewrite app_nil_r, addEntries_nil.
  - rewrite saveFileHits_cons.
    destruct (saveFileHit_events fuel folder h st)
      as (e1 & n1 & (He1 & Hd1 & _ & _) & Hh1).
    destruct (Helper_saveFileHit fuel folder h st) as (_ & Hx).
    destruct (saveFileHit E fuel folder h st) as [st1 [[]|e|]]; simpl in *.
    + destruct (IH st1) as (e2 & n2 & He2 & Hd2 & Hh2).
      exists (e1 ++ e2)%list, (n1 ++ n2)%list.
      rewrite He2, Hd2, He1, Hd1, addEntries_app, app_assoc.
      repeat split; auto. apply Forall_app; auto.
    + destruct (Hx e eq_refl) as (msg & ->).
      destruct (IH (caught st1 msg)) as (e2 & n2 & He2 & Hd2 & Hh2).
      exists (e1 ++ LogError msg :: e2)%list, (n1 ++ n2)%list.
      rewrite He2, Hd2. simpl. rewrite He1, Hd1, addEntries_app.
      rewrite <- !app_assoc. repeat split; auto.
      apply Forall_app. split; auto. constructor; simpl; auto.
    + exists e1, n1. auto.
Qed.

(** *** Termination *)

(** The parent relation of the image database is a tree below every
    directory: [rank] decreases from a directory to its subdirectories. *)
Definition DepthBounded (rank : N -> nat) : Prop :=
  forall p fileRecs fileRec d,
    getFileRecords E p = Done fileRecs -> In fileRec fileRecs ->
    getFile E fileRec = Done d ->
    isDirectory E d = true -> rank (getId d) < rank p.

Lemma forEach_fuel {A} (l : list A) (body : A -> M unit) :
  (forall x st, In x l -> snd (body x st) <> OutOfFuel) ->
  forall st, snd (forEach l body st) <> OutOfFuel.
Proof.
  induction l as [|a l IH]; intros Hb st; simpl.
  - discriminate.
  - unfold bind. specialize (Hb a st (or_introl eq_refl)) as Ha.
    destruct (body a st) as [s [[]|e|]]; simpl in *;
      [|discriminate|congruence].
    apply IH. intros; apply Hb; now right.
Qed.

(** With more fuel than the rank of a directory the descent into it ends. *)
Lemma saveDirectoryContents_fuel rank :
  DepthBounded rank ->
  forall fuel dirPath dir st,
    rank (getId dir) < fuel ->
    snd (saveDirectoryContents E fuel dirPath dir st) <> OutOfFuel.
Proof.
  intros Hrank. induction fuel as [|fuel IH]; intros dirPath dir st Hlt;
    [lia|].
  simpl. unfold bind at 1, imgDB_getFileRecords.
  destruct (getFileRecords E (getId dir)) as [recs|msg] eqn:Hrecs; simpl;
    [|discriminate].
  apply forEach_fuel. intros fileRec s Hin.
  unfold bind at 1, fileManager_getFile.
  destruct (getFile E fileRec) as [f|msg] eqn:Hf; simpl; [|discriminate].
  destruct (isDirectory E f) eqn:Hd.
  - unfold bind, createDirectory, emit, throw.
    destruct (createDirectories E (events s) _); simpl; [|discriminate].
    apply IH. specialize (Hrank _ _ _ _ Hrecs Hin Hf Hd). lia.
  - unfold bind, fileManager_copyFile, emit, throw.
    destruct (copyFile E (events s) _ _); simpl; [|discriminate].
    rewrite addFileToReport_spec. discriminate.
Qed.

Lemma saveFileHit_fuel rank fuel folder hit st :
  DepthBounded rank -> (forall id, rank id < fuel) ->
  snd (saveFileHit E fuel folder hit st) <> OutOfFuel.
Proof.
  intros Hrank Hfuel. unfold saveFileHit, bind at 1, fileManager_getFile.
  destruct (getFile E (getObjectID (snd hit))) as [f|msg]; simpl;
    [|discriminate].
  destruct (isDirectory E f).
  - unfold saveInterestingDirectory, bind, createDirectory, emit, throw.
    destruct (createDirectories E (events st) _); simpl; [|discriminate].
    rewrite addFileToReport_spec.
    eapply saveDirectoryContents_fuel; eauto.
  - unfold saveInterestingFile, bind, fileManager_copyFile, emit, throw.
    destruct (copyFile E (events st) _ _); simpl; [|discriminate].
    rewrite addFileToReport_spec. discriminate.
Qed.

(** With enough fuel the loop over the hits of a set always runs to its
    end, whatever happens to the individual hits. *)
Lemma saveFileHits_Normal rank fuel folder hits :
  DepthBounded rank -> (forall id, rank id < fuel) ->
  forall st, snd (saveFileHits E fuel folder hits st) = Normal tt.
Proof.
  intros Hrank Hfuel. induction hits as [|h hits IH]; intros st.
  - reflexivity.
  - rewrite saveFileHits_cons.
    pose proof (saveFileHit_fuel folder h st Hrank Hfuel) as Hf.
    destruct (Helper_saveFileHit fuel folder h st) as (_ & Hx).
    destruct (saveFileHit E fuel folder h st) as [st1 [[]|e|]]; simpl in *.
    + apply IH.
    + destruct (Hx e eq_refl) as (msg & ->). apply IH.
    + congruence.
Qed.

(** *** The descent into an interesting directory ends *)

Lemma saveInterestingDirectory_unfold fuel dir fileSetFolderPath st :
  let path := directoryTarget dir fileSetFolderPath in
  saveInterestingDirectory E fuel dir fileSetFolderPath st =
  match createDirectories E (events st) path with
  | Failed msg => (st, Throw (TskException (createDirectoryMessage E msg)))
  | Done _ =>
      saveDirectoryContents E fuel path dir
        (mkState (events st ++ [CreatedDir path])
                 (addEntries (reportDoc st) [fileElement E dir path])
                 (returnCode st))
  end.
Proof.
  intros path. unfold saveInterestingDirectory. fold sep.
  fold (directoryTarget dir fileSetFolderPath). fold path.
  unfold bind, createDirectory, emit, throw.
  destruct (createDirectories E (events st) path); [|reflexivity].
  now rewrite addFileToReport_spec.
Qed.

(** When the database answers every query and the file system refuses
    nothing, the descent into a directory of a tree completes normally. *)
Lemma saveDirectoryContents_succeeds rank :
  DepthBounded rank ->
  (forall p, exists fileRecs, getFileRecords E p = Done fileRecs) ->
  (forall p fileRecs fileRec,
      getFileRecords E p = Done fileRecs -> In fileRec fileRecs ->
      exists file, getFile E fileRec = Done file) ->
  (forall evs path, createDirectories E evs path = Done tt) ->
  (forall evs id path, copyFile E evs id path = Done tt) ->
  forall fuel dirPath dir st,
    rank (getId dir) < fuel ->
    snd (saveDirectoryContents E fuel dirPath dir st) = Normal tt.
Proof.
  intros Hrank Hrecords Hchildren Hmkdir Hcopy.
  induction fuel as [|fuel IH]; intros dirPath dir st Hlt; [lia|].
  simpl. unfold bind at 1, imgDB_getFileRecords.
  destruct (Hrecords (getId dir)) as (recs & Hrecs). rewrite Hrecs. simpl.
  apply forEach_success. intros fileRec s Hin.
  unfold bind at 1, fileManager_getFile.
  destruct (Hchildren _ _ _ Hrecs Hin) as (f & Hf). rewrite Hf. simpl.
  destruct (isDirectory E f) eqn:Hd.
  - unfold bind, createDirectory, emit. rewrite Hmkdir.
    apply IH. specialize (Hrank _ _ _ _ Hrecs Hin Hf Hd). lia.
  - unfold bind, fileManager_copyFile, emit. rewrite Hcopy.
    now rewrite addFileToReport_spec.
Qed.

(** C5. A top-level directory named [n] with id [i] is materialised at
    <set folder>/<n>_<i>/<n>.  The image database being a tree and the fuel
    sufficient, the export ends: it returns or throws.  Below the directory,
    whatever the outcome, only directories and files of the database are
    materialised, each at the path made of the plain names on the way down
    from the directory: no id is added to the name of a nested directory or
    of a nested file.  When the export completes normally, everything below
    the directory has been materialised there; and it does complete
    normally when the database answers every query and no directory
    creation or file copy is refused. *)
Theorem saveInterestingDirectory_paths :
  forall (rank : N -> nat) (fuel : nat) (dir : TskFile)
         (fileSetFolderPath : string) (st : State),
    DepthBounded rank -> rank (getId dir) < fuel ->
    let path :=
      fileSetFolderPath ++ separator E ++ getName dir ++ "_"
        ++ decimal (getId dir) ++ separator E ++ getName dir in
    let out := saveInterestingDirectory E fuel dir fileSetFolderPath st in
    snd out <> OutOfFuel /\
    match createDirectories E (events st) path with
    | Failed msg =>
        out = (st, Throw (TskException (createDirectoryMessage E msg)))
    | Done _ =>
        exists items,
          events (fst out) = (events st ++ CreatedDir path :: map eventOf items)%list /\
          Forall (Nested path (getId dir)) items /\
          (snd out = Normal tt ->
           forall p f, PlainPath path (getId dir) p f ->
                       In (eventOf (item p f)) (map eventOf items)) /\
          ((forall p, exists fileRecs, getFileRecords E p = Done fileRecs) ->
           (forall p fileRecs fileRec,
               getFileRecords E p = Done fileRecs -> In fileRec fileRecs ->
               exists file, getFile E fileRec = Done file) ->
           (forall evs path, createDirectories E evs path = Done tt) ->
           (forall evs id path, copyFile E evs id path = Done tt) ->
           snd out = Normal tt)
    end.
Proof.
  intros rank fuel dir folder st Hrank Hfuel path out.
  pose proof (saveInterestingDirectory_items fuel dir folder st) as H.
  pose proof (saveInterestingDirectory_unfold fuel dir folder st) as Hu.
  cbv zeta in H, Hu. unfold directoryTarget in H, Hu. unfold sep in H, Hu.
  fold path in H, Hu. fold out in H, Hu.
  destruct (createDirectories E (events st) path).
  - split.
    + rewrite Hu. now apply saveDirectoryContents_fuel with (rank := rank).
    + destruct H as (items & (He & _) & Hn & Hc). exists items.
      split; [exact He|]. split; [exact Hn|]. split; [exact Hc|].
      intros Hrecords Hchildren Hmkdir Hcopy. rewrite Hu.
      now apply saveDirectoryContents_succeeds with (rank := rank).
  - split; [rewrite H; discriminate | exact H].
Qed.

(** *** Saving one file set *)

(** The root element [saveFiles] starts the report of a set with. *)
Definition reportRoot (setName setDescription : string) : Node :=
  Element "InterestingFileSet"
    [("name", setName); ("description", setDescription)] [].

Definition fileSetFolder (setName : string) : string :=
  outputFolderPath E ++ sep ++ setName.

Definition reportFile (setName : string) : string :=
  fileSetFolder setName ++ sep ++ setName ++ ".xml".

(** The state in which [saveFiles] enters its loop over the hits. *)
Definition entered (st : State) (setName setDescription : string) : State :=
  mkState (events st ++ [CreatedDir (fileSetFolder setName)])
          [reportRoot setName setDescription] (returnCode st).

Lemma saveFiles_unfold fuel setName setDescription hits st :
  saveFiles E fuel setName setDescription hits st =
  match createDirectories E (events st) (fileSetFolder setName) with
  | Failed msg =>
      (mkState (events st) [reportRoot setName setDescription] (returnCode st),
       Throw (TskException (createDirectoryMessage E msg)))
  | Done _ =>
      match saveFileHits E fuel (fileSetFolder setName) hits
              (entered st setName setDescription) with
      | (st2, Normal _) =>
          match openFileStream E (events st2) (reportFile setName) with
          | Done _ =>
              (mkState (events st2 ++ [WroteReport (reportFile setName) (reportDoc st2)])
                       (reportDoc st2) (returnCode st2), Normal tt)
          | Failed msg => (st2, Throw (PocoException msg))
          end
      | (st2, Throw e) => (st2, Throw e)
      | (st2, OutOfFuel) => (st2, OutOfFuel)
      end
  end.
Proof.
  unfold saveFiles. fold sep. fold (fileSetFolder setName).
  change (fileSetFolder setName ++ sep ++ setName ++ ".xml")
    with (reportFile setName).
  unfold bind at 1. simpl.
  unfold bind at 1, createDirectory, emit, throw. simpl.
  destruct (createDirectories E (events st) (fileSetFolder setName)); auto.
Qed.

End Saving.

(** ** Grouping the hits by set name *)

Lemma string_lt_trans a b c : string_lt a b -> string_lt b c -> string_lt a c.
Proof.
  unfold string_lt. intros Hab Hbc.
  apply String_as_OT.cmp_lt in Hab. apply String_as_OT.cmp_lt in Hbc.
  apply String_as_OT.cmp_lt. eapply String_as_OT.lt_trans; eauto.
Qed.

Lemma string_lt_irrefl a : ~ string_lt a a.
Proof.
  unfold string_lt. intros H.
  assert (Heq : String.compare a a = Eq) by now apply String_as_OT.cmp_eq.
  congruence.
Qed.

Lemma compare_Gt_lt a b : String.compare a b = Gt -> string_lt b a.
Proof.
  unfold string_lt. intros H. rewrite String.compare_antisym, H. reflexivity.
Qed.

(** [std::map::find], as an optional value. *)
Fixpoint lookup (k : string) (m : list (string * string)) : option string :=
  match m with
  | [] => None
  | (k', v) :: m' => if String.eqb k' k then Some v else lookup k m'
  end.

Definition keys {V} (m : list (string * V)) : list string := map fst m.

(** The invariant of a [std::map]: keys in strictly ascending order. *)
Definition SortedMap (m : FileSets) : Prop := StronglySorted string_lt (keys m).

Lemma map_insert_keys k v m x :
  In x (keys (map_insert k v m)) <-> x = k \/ In x (keys m).
Proof.
  induction m as [|[k' v'] m IH]; simpl.
  - intuition.
  - destruct (String.compare k k') eqn:Hc; simpl.
    + apply String.compare_eq_iff in Hc. subst. intuition congruence.
    + intuition congruence.
    + rewrite IH. intuition congruence.
Qed.

Lemma map_insert_sorted k v m : SortedMap m -> SortedMap (map_insert k v m).
Proof.
  unfold SortedMap. induction m as [|[k' v'] m IH]; simpl; intros Hs.
  - repeat constructor.
  - inversion Hs as [|? ? Hs' Hall]; subst.
    destruct (String.compare k k') eqn:Hc; simpl.
    + exact Hs.
    + constructor; [exact Hs|]. constructor; [exact Hc|].
      eapply Forall_impl; [|exact Hall].
      intros x Hx. eapply string_lt_trans; eauto.
    + constructor; [now apply IH|].
      apply Forall_forall. intros x Hx.
      apply map_insert_keys in Hx as [->|Hx].
      * now apply compare_Gt_lt.
      * rewrite Forall_forall in Hall. now apply Hall.
Qed.

Lemma lookup_None k m : lookup k m = None <-> ~ In k (keys m).
Proof.
  induction m as [|[k' v'] m IH]; simpl.
  - tauto.
  - destruct (String.eqb_spec k' k) as [->|Hne].
    + split; [discriminate|]. intros H. exfalso. apply H. now left.
    + rewrite IH. intuition.
Qed.

Lemma SortedMap_head_fresh k v m : SortedMap ((k, v) :: m) -> lookup k m = None.
Proof.
  unfold SortedMap. simpl. intros Hs.
  inversion Hs as [|? ? _ Hall]; subst.
  apply lookup_None. intros Hin. rewrite Forall_forall in Hall.
  exact (string_lt_irrefl (Hall _ Hin)).
Qed.

Lemma SortedMap_tail k v m : SortedMap ((k, v) :: m) -> SortedMap m.
Proof. unfold SortedMap. simpl. now inversion 1. Qed.

(** [insert] leaves the value of a key that is present alone. *)
Lemma lookup_map_insert k v m x :
  SortedMap m ->
  lookup x (map_insert k v m) =
  match lookup x m with
  | Some d => Some d
  | None => if String.eqb k x then Some v else None
  end.
Proof.
  induction m as [|[k' v'] m IH]; simpl; intros Hs.
  - reflexivity.
  - destruct (String.compare k k') eqn:Hc; simpl.
    + apply String.compare_eq_iff in Hc. subst k'.
      destruct (String.eqb_spec k x); auto.
      destruct (lookup x m); auto.
    + destruct (String.eqb_spec k x) as [->|Hne].
      * destruct (String.eqb_spec k' x) as [->|Hne'].
        -- exfalso. exact (string_lt_irrefl Hc).
        -- assert (Hfresh : lookup x m = None).
           { apply lookup_None. intros Hin.
             unfold SortedMap in Hs. simpl in Hs.
             inversion Hs as [|? ? _ Hall]; subst.
             rewrite Forall_forall in Hall.
             exact (string_lt_irrefl (string_lt_trans Hc (Hall _ Hin))). }
           now rewrite Hfresh.
      * destruct (String.eqb k' x); auto. destruct (lookup x m); auto.
    + destruct (String.eqb_spec k' x) as [->|Hne']; auto.
      apply IH. eapply SortedMap_tail; eauto.
Qed.

Lemma SortedMap_NoDup m : SortedMap m -> NoDup (keys m).
Proof.
  unfold SortedMap. induction 1 as [|k ks Hs IH Hall]; constructor; auto.
  intros Hin. rewrite Forall_forall in Hall.
  exact (string_lt_irrefl (Hall _ Hin)).
Qed.

Lemma SortedMap_lookup_In m k v :
  SortedMap m -> (In (k, v) m <-> lookup k m = Some v).
Proof.
  induction m as [|[k' v'] m IH]; simpl; intros Hs.
  - split; [tauto|discriminate].
  - pose proof (SortedMap_head_fresh Hs) as Hfresh.
    specialize (IH (SortedMap_tail Hs)).
    destruct (String.eqb_spec k' k) as [->|Hne].
    + split.
      * intros [[= ->]|Hin]; auto.
        apply IH in Hin. congruence.
      * intros [= ->]. now left.
    + rewrite <- IH. split; auto. intros [[= -> _]|Hin]; [congruence|auto].
Qed.

(** [std::multimap::insert] adds one entry and keeps the others. *)
Lemma multimap_insert_In k v m x :
  In x (multimap_insert k v m) <-> x = (k, v) \/ In x m.
Proof.
  induction m as [|[k' v'] m IH]; simpl.
  - intuition.
  - destruct (String.ltb k k'); simpl.
    + intuition.
    + rewrite IH. intuition.
Qed.

(** The invariant of a [std::multimap]: keys in ascending order. *)
Definition SortedMultimap (m : FileSetHits) : Prop :=
  StronglySorted (fun a b => String.ltb b a = false) (keys m).

Lemma ltb_lt a b : String.ltb a b = true <-> string_lt a b.
Proof.
  unfold String.ltb, string_lt.
  destruct (String.compare a b); split; congruence.
Qed.

Lemma lt_not_ltb a b : string_lt a b -> String.ltb b a = false.
Proof.
  unfold String.ltb, string_lt. intros H.
  now rewrite String.compare_antisym, H.
Qed.

Lemma lt_le_trans a b c :
  string_lt a b -> String.ltb c b = false -> string_lt a c.
Proof.
  intros Hab Hbc. unfold String.ltb in Hbc.
  destruct (String.compare c b) eqn:Hc; [| discriminate |].
  - apply String.compare_eq_iff in Hc. now subst.
  - eapply string_lt_trans; [exact Hab|]. now apply compare_Gt_lt.
Qed.

Lemma multimap_insert_keys k v m x :
  In x (keys (multimap_insert k v m)) <-> x = k \/ In x (keys m).
Proof.
  induction m as [|[k' v'] m IH]; simpl.
  - intuition congruence.
  - destruct (String.ltb k k'); simpl.
    + intuition congruence.
    + rewrite IH. intuition congruence.
Qed.

Lemma multimap_insert_sorted k v m :
  SortedMultimap m -> SortedMultimap (multimap_insert k v m).
Proof.
  unfold SortedMultimap. induction m as [|[k' v'] m IH]; simpl; intros Hs.
  - repeat constructor.
  - inversion Hs as [|? ? Hs' Hall]; subst.
    destruct (String.ltb k k') eqn:Hlt; simpl.
    + apply ltb_lt in Hlt.
      constructor; [exact Hs|]. constructor; [now apply lt_not_ltb|].
      eapply Forall_impl; [|exact Hall].
      intros x Hx. apply lt_not_ltb. eapply lt_le_trans; eauto.
    + constructor; [now apply IH|].
      apply Forall_forall. intros x Hx.
      apply multimap_insert_keys in Hx as [->|Hx]; [exact Hlt|].
      rewrite Forall_forall in Hall. now apply Hall.
Qed.


Section Grouping.

Variable E : Services.

Definition isSetName (attr : TskBlackboardAttribute) : bool :=
  N.eqb (getAttributeTypeID attr) (TSK_SET_NAME E).

(** A hit is valid when it has a set name attribute. *)
Definition valid (fileHit : TskBlackboardArtifact) : bool :=
  existsb isSetName (getAttributes fileHit).

(** The (set name, description) pairs a hit carries, in attribute order. *)
Definition descriptions (fileHit : TskBlackboardArtifact)
  : list (string * string) :=
  map (fun attr => (getValueString attr, getContext attr))
      (filter isSetName (getAttributes fileHit)).

(** The hit, under each set name it carries. *)
Definition memberships (fileHit : TskBlackboardArtifact) : FileSetHits :=
  map (fun attr => (getValueString attr, fileHit))
      (filter isSetName (getAttributes fileHit)).

Definition insertSet (m : FileSets) (p : string * string) : FileSets :=
  map_insert (fst p) (snd p) m.

Definition insertHit (m : FileSetHits) (p : string * TskBlackboardArtifact)
  : FileSetHits :=
  multimap_insert (fst p) (snd p) m.

Lemma groupAttribute_fold fileHit attrs sets hits found :
  fold_left (groupAttribute E fileHit) attrs (sets, hits, found) =
  (fold_left insertSet
     (map (fun attr => (getValueString attr, getContext attr))
          (filter isSetName attrs)) sets,
   fold_left insertHit
     (map (fun attr => (getValueString attr, fileHit))
          (filter isSetName attrs)) hits,
   found || existsb isSetName attrs).
Proof.
  revert sets hits found. induction attrs as [|a attrs IH]; intros.
  - simpl. now rewrite orb_false_r.
  - cbn [fold_left filter existsb].
    change (groupAttribute E fileHit (sets, hits, found) a)
      with (if isSetName a
            then (map_insert (getValueString a) (getContext a) sets,
                  multimap_insert (getValueString a) fileHit hits, true)
            else (sets, hits, found)).
    destruct (isSetName a) eqn:Ha; rewrite IH; simpl.
    + now rewrite orb_true_r.
    + reflexivity.
Qed.

Lemma groupArtifact_spec g fileHit :
  groupArtifact E g fileHit =
  mkGrouping (fold_left insertSet (descriptions fileHit) (fileSets g))
             (fold_left insertHit (memberships fileHit) (fileSetHits g))
             (if valid fileHit then errors g
              else (errors g ++ [missingSetNameMessage fileHit])%list).
Proof.
  unfold groupArtifact. rewrite groupAttribute_fold. reflexivity.
Qed.

(** The grouping loop, container by container. *)
Lemma groupArtifacts_fold arts g :
  let g' := fold_left (groupArtifact E) arts g in
  fileSets g' = fold_left insertSet (flat_map descriptions arts) (fileSets g) /\
  fileSetHits g' = fold_left insertHit (flat_map memberships arts) (fileSetHits g) /\
  errors g' =
    (errors g ++ map missingSetNameMessage
                     (filter (fun hit => negb (valid hit)) arts))%list.
Proof.
  revert g. induction arts as [|a arts IH]; intros g; cbv zeta; simpl.
  - now rewrite app_nil_r.
  - destruct (IH (groupArtifact E g a)) as (Hs & Hh & He).
    rewrite Hs, Hh, He, groupArtifact_spec. simpl.
    rewrite !fold_left_app. repeat split; auto.
    destruct (valid a); simpl; auto. now rewrite <- app_assoc.
Qed.

Lemma fold_insertSet_sorted l m : SortedMap m -> SortedMap (fold_left insertSet l m).
Proof.
  revert m. induction l as [|p l IH]; intros m Hs; simpl; auto.
  apply IH. now apply map_insert_sorted.
Qed.

Lemma fold_insertSet_keys l m x :
  In x (keys (fold_left insertSet l m)) <-> In x (keys m) \/ In x (keys l).
Proof.
  revert m. induction l as [|p l IH]; intros m; simpl.
  - tauto.
  - rewrite IH. unfold insertSet. rewrite map_insert_keys.
    intuition congruence.
Qed.

(** The first description met for a name is the one the map keeps. *)
Lemma fold_insertSet_lookup l m x :
  SortedMap m ->
  lookup x (fold_left insertSet l m) =
  match lookup x m with
  | Some d => Some d
  | None => lookup x l
  end.
Proof.
  revert m. induction l as [|[k v] l IH]; intros m Hs; simpl.
  - now destruct (lookup x m).
  - rewrite IH by now apply map_insert_sorted.
    unfold insertSet. simpl. rewrite lookup_map_insert by assumption.
    destruct (lookup x m); auto. now destruct (String.eqb k x).
Qed.

Lemma fold_insertHit_sorted l m :
  SortedMultimap m -> SortedMultimap (fold_left insertHit l m).
Proof.
  revert m. induction l as [|p l IH]; intros m Hs; simpl; auto.
  apply IH. now apply multimap_insert_sorted.
Qed.


(** The set names and descriptions of all hits, in the order the grouping
    loop meets them. *)
Definition allDescriptions (arts : list TskBlackboardArtifact)
  : list (string * string) :=
  flat_map descriptions arts.

Lemma fileSets_sorted arts : SortedMap (fileSets (groupArtifacts E arts)).
Proof.
  unfold groupArtifacts.
  destruct (groupArtifacts_fold arts (mkGrouping [] [] [])) as (-> & _).
  apply fold_insertSet_sorted. constructor.
Qed.

Lemma fileSets_lookup arts name :
  lookup name (fileSets (groupArtifacts E arts))
  = lookup name (allDescriptions arts).
Proof.
  unfold groupArtifacts.
  destruct (groupArtifacts_fold arts (mkGrouping [] [] [])) as (-> & _).
  rewrite fold_insertSet_lookup by constructor. reflexivity.
Qed.

Lemma fileSets_keys arts name :
  In name (keys (fileSets (groupArtifacts E arts))) <->
  exists fileHit attr,
    In fileHit arts /\ In attr (getAttributes fileHit) /\
    getAttributeTypeID attr = TSK_SET_NAME E /\ getValueString attr = name.
Proof.
  unfold groupArtifacts.
  destruct (groupArtifacts_fold arts (mkGrouping [] [] [])) as (-> & _).
  rewrite fold_insertSet_keys. simpl. unfold keys.
  rewrite in_map_iff. split.
  - intros [[]|((k & v) & <- & Hin)].
    apply in_flat_map in Hin as (hit & Hhit & Hin).
    unfold descriptions in Hin. apply in_map_iff in Hin as (attr & [= <- <-] & Hin).
    apply filter_In in Hin as (Hin & Hset).
    exists hit, attr. repeat split; auto. now apply N.eqb_eq.
  - intros (hit & attr & Hhit & Hin & Hty & <-). right.
    exists (getValueString attr, getContext attr). split; auto.
    apply in_flat_map. exists hit. split; auto.
    unfold descriptions. apply in_map_iff. exists attr. split; auto.
    apply filter_In. split; auto. now apply N.eqb_eq.
Qed.


End Grouping.

(** ** The run of [report()] *)

Section Report.

Variable E : Services.

Let grouping : Grouping := groupArtifacts E (getArtifacts E).

Definition started : string :=
  "SaveInterestingFilesModule save operations started".

Definition finished : string :=
  "SaveInterestingFilesModule save operations finished".

Lemma forEach_LOGERROR msgs st :
  forEach msgs LOGERROR st =
  (mkState (events st ++ map LogError msgs) (reportDoc st) (returnCode st),
   Normal tt).
Proof.
  revert st. induction msgs as [|m msgs IH]; intros st; simpl.
  - unfold ret. rewrite app_nil_r. now destruct st.
  - unfold bind, LOGERROR, emit. rewrite IH. simpl.
    now rewrite <- app_assoc.
Qed.

(** The run up to the end of the loop over the file sets [sets]. *)
Definition reportUpTo (fuel : nat) (sets : FileSets) : M unit :=
  createDirectory E (outputFolderPath E) ;;
  forEach (errors grouping) LOGERROR ;;
  saveFileSets E fuel sets (fileSetHits grouping).

Lemma reportBody_upTo fuel : reportBody E fuel = reportUpTo fuel (fileSets grouping).
Proof. reflexivity. Qed.

Lemma reportUpTo_unfold fuel sets st :
  reportUpTo fuel sets st =
  match createDirectories E (events st) (outputFolderPath E) with
  | Failed msg => (st, Throw (TskException (createDirectoryMessage E msg)))
  | Done _ =>
      saveFileSets E fuel sets (fileSetHits grouping)
        (mkState (events st ++ CreatedDir (outputFolderPath E)
                                 :: map LogError (errors grouping))
                 (reportDoc st) (returnCode st))
  end.
Proof.
  unfold reportUpTo, bind at 1, createDirectory, emit, throw.
  destruct (createDirectories E (events st) (outputFolderPath E)); auto.
  unfold bind. rewrite forEach_LOGERROR. simpl.
  now rewrite <- app_assoc.
Qed.

Lemma report_unfold fuel history :
  report E fuel history =
  match reportBody E fuel (mkState (history ++ [LogInfo started]) [] OK) with
  | (st, Normal _) => ((events st ++ [LogInfo finished])%list, Normal (returnCode st))
  | (st, Throw (TskException msg)) =>
      ((events st ++ [LogError msg; LogInfo finished])%list, Normal FAIL)
  | (st, Throw e) => (events st, Throw e)
  | (st, OutOfFuel) => (events st, OutOfFuel)
  end.
Proof.
  unfold report, bind, tryCatch, LOGINFO, LOGERROR, emit, setReturnCode.
  simpl.
  destruct (reportBody E fuel _) as [st [[]|[msg|msg]|]]; simpl; auto.
  now rewrite <- app_assoc.
Qed.

Lemma forEach_app {A} (l1 l2 : list A) (body : A -> M unit) st :
  forEach (l1 ++ l2) body st =
  match forEach l1 body st with
  | (st1, Normal _) => forEach l2 body st1
  | out => out
  end.
Proof.
  revert st. induction l1 as [|a l1 IH]; intros st; simpl; auto.
  unfold bind. destruct (body a st) as [st1 [[]|e|]]; auto.
Qed.

Lemma saveFileSets_app fuel l1 l2 hits st :
  saveFileSets E fuel (l1 ++ l2)%list hits st =
  match saveFileSets E fuel l1 hits st with
  | (st1, Normal _) => saveFileSets E fuel l2 hits st1
  | out => out
  end.
Proof. unfold saveFileSets. apply forEach_app. Qed.

Lemma saveFileSets_cons fuel fileSet sets hits st :
  saveFileSets E fuel (fileSet :: sets) hits st =
  match saveFiles E fuel (fst fileSet) (snd fileSet)
          (equal_range (fst fileSet) hits) st with
  | (st1, Normal _) => saveFileSets E fuel sets hits st1
  | (st1, Throw e) => (st1, Throw e)
  | (st1, OutOfFuel) => (st1, OutOfFuel)
  end.
Proof. reflexivity. Qed.

(** C8. When the output folder cannot be created, [report()] logs the error
    and returns [FAIL] at once: nothing is created, copied or written, so no
    file set is processed and no hit is exported. *)
Theorem report_root_failure :
  forall (fuel : nat) (history : list Event) (msg : string),
    createDirectories E (history ++ [LogInfo started]) (outputFolderPath E)
      = Failed msg ->
    report E fuel history =
    ((history ++ [LogInfo started;
                  LogError (createDirectoryMessage E msg);
                  LogInfo finished])%list,
     Normal FAIL).
Proof.
  intros fuel history msg Hroot.
  rewrite report_unfold, reportBody_upTo, reportUpTo_unfold. simpl.
  rewrite Hroot. simpl. now rewrite <- app_assoc.
Qed.

(** C1 (as the code has it). When the folder of a file set cannot be
    created, the exception leaves [saveFiles] and the loop over the file
    sets and is caught by the handler of [report()]: the sets before it in
    the order of the map have been saved, the run logs the error and returns
    [FAIL], and neither that set nor any later one gets a folder, an export
    or a report. *)
Theorem report_set_folder_failure :
  forall (fuel : nat) (history : list Event) (before after : FileSets)
         (name description : string) (st : State) (msg : string),
    fileSets (groupArtifacts E (getArtifacts E))
      = (before ++ (name, description) :: after)%list ->
    reportUpTo fuel before (mkState (history ++ [LogInfo started]) [] OK)
      = (st, Normal tt) ->
    createDirectories E (events st)
      (outputFolderPath E ++ separator E ++ name) = Failed msg ->
    report E fuel history =
    ((events st ++ [LogError (createDirectoryMessage E msg);
                    LogInfo finished])%list,
     Normal FAIL).
Proof.
  intros fuel history before after name description st msg Hsets Hbefore Hdir.
  rewrite report_unfold, reportBody_upTo. fold grouping in Hsets.
  rewrite Hsets.
  assert (Hrun : reportUpTo fuel (before ++ (name, description) :: after)%list
                   (mkState (history ++ [LogInfo started]) [] OK)
                 = (mkState (events st) [reportRoot name description]
                            (returnCode st),
                    Throw (TskException (createDirectoryMessage E msg)))).
  { rewrite reportUpTo_unfold in *.
    destruct (createDirectories E _ (outputFolderPath E)); [|discriminate].
    rewrite saveFileSets_app, Hbefore, saveFileSets_cons, saveFiles_unfold.
    simpl. unfold fileSetFolder. now rewrite Hdir. }
  rewrite Hrun. reflexivity.
Qed.

(** C2 (as the code has it). Once the folder of a file set exists, the
    loop over its hits runs to its end whatever happens to the hits (the
    database being a tree and the fuel sufficient), and then the report of
    the set, whose root carries the name and the description of the set, is
    written to <output folder>/<set name>/<set name>.xml; a stream that
    cannot be opened throws out of [saveFiles]. *)
Theorem saveFiles_writes_report :
  forall (fuel : nat) (rank : N -> nat) (setName setDescription : string)
         (hits : FileSetHits) (st : State),
    DepthBounded E rank -> (forall id, rank id < fuel) ->
    let folder := outputFolderPath E ++ separator E ++ setName in
    let path := folder ++ separator E ++ setName ++ ".xml" in
    createDirectories E (events st) folder = Done tt ->
    exists st2 ents,
      saveFileHits E fuel folder hits
        (mkState (events st ++ [CreatedDir folder])
           [Element "InterestingFileSet"
              [("name", setName); ("description", setDescription)] []]
           (returnCode st)) = (st2, Normal tt) /\
      reportDoc st2 =
        [Element "InterestingFileSet"
           [("name", setName); ("description", setDescription)] ents] /\
      saveFiles E fuel setName setDescription hits st =
      match openFileStream E (events st2) path with
      | Done _ =>
          (mkState (events st2 ++ [WroteReport path (reportDoc st2)])
                   (reportDoc st2) (returnCode st2), Normal tt)
      | Failed msg => (st2, Throw (PocoException msg))
      end.
Proof.
  intros fuel rank setName setDescription hits st Hrank Hfuel folder path Hdir.
  rewrite saveFiles_unfold.
  change (fileSetFolder E setName) with folder.
  change (reportFile E setName) with path. rewrite Hdir.
  change (entered E st setName setDescription)
    with (mkState (events st ++ [CreatedDir folder])
            [Element "InterestingFileSet"
               [("name", setName); ("description", setDescription)] []]
            (returnCode st)).
  match goal with
  | |- context [saveFileHits E fuel folder hits ?s] => set (st1 := s)
  end.
  pose proof (saveFileHits_Normal folder hits Hrank Hfuel st1) as Hn.
  destruct (saveFileHits_grows E fuel folder hits st1)
    as ((evs & ents & _ & Hd & _) & _).
  destruct (saveFileHits E fuel folder hits st1) as [st2 r].
  simpl in Hn, Hd. subst r. exists st2, ents. repeat split; auto.
Qed.

(** *** The trace of a run that saved all its file sets *)

(** The events of one file set in a run: the creation of its folder, the
    events of its hits, none of them the writing of a report, and the
    writing of its report, whose root carries its name and description. *)
Definition SetSegment (fileSet : string * string) (seg : list Event) : Prop :=
  exists body ents,
    seg = (CreatedDir (outputFolderPath E ++ separator E ++ fst fileSet)
             :: body ++
             [WroteReport
                ((outputFolderPath E ++ separator E ++ fst fileSet)
                   ++ separator E ++ fst fileSet ++ ".xml")
                [Element "InterestingFileSet"
                   [("name", fst fileSet); ("description", snd fileSet)]
                   ents]])%list /\
    Forall quiet body.

Lemma saveFiles_Normal_inv fuel setName setDescription hits st st' :
  saveFiles E fuel setName setDescription hits st = (st', Normal tt) ->
  exists seg,
    events st' = (events st ++ seg)%list /\
    SetSegment (setName, setDescription) seg.
Proof.
  rewrite saveFiles_unfold.
  destruct (createDirectories E (events st) _); [|discriminate].
  destruct (saveFileHits_grows E fuel (fileSetFolder E setName) hits
              (entered E st setName setDescription))
    as ((evs & ents & He & Hd & Hq) & _).
  destruct (saveFileHits E fuel _ hits _) as [st2 [[]|e|]]; try discriminate.
  destruct (openFileStream E (events st2) _); [|discriminate].
  intros [= <-]. simpl in *. rewrite He, Hd. eexists. split.
  - rewrite <- !app_assoc. simpl. reflexivity.
  - exists evs, ents. split; auto.
Qed.

Lemma saveFileSets_trace fuel hits sets :
  forall st st',
    saveFileSets E fuel sets hits st = (st', Normal tt) ->
    exists segs,
      events st' = (events st ++ List.concat segs)%list /\
      Forall2 SetSegment sets segs.
Proof.
  induction sets as [|[name description] sets IH]; intros st st' Hrun.
  - injection Hrun as <-. exists []. simpl. now rewrite app_nil_r.
  - rewrite saveFileSets_cons in Hrun. simpl fst in Hrun. simpl snd in Hrun.
    destruct (saveFiles E fuel name description _ st) as [st1 [[]|e|]] eqn:Hs;
      try discriminate.
    apply saveFiles_Normal_inv in Hs as (seg & He & Hseg).
    apply IH in Hrun as (segs & He' & Hsegs).
    exists (seg :: segs). split; [|now constructor].
    simpl. now rewrite He', He, <- app_assoc.
Qed.

Lemma reportBody_trace fuel st st' :
  reportBody E fuel st = (st', Normal tt) ->
  exists segs,
    events st' = (events st ++ CreatedDir (outputFolderPath E)
                    :: map LogError (errors grouping) ++ List.concat segs)%list /\
    Forall2 SetSegment (fileSets grouping) segs.
Proof.
  rewrite reportBody_upTo, reportUpTo_unfold.
  destruct (createDirectories E (events st) _); [|discriminate].
  intros Hrun. apply saveFileSets_trace in Hrun as (segs & He & Hsegs).
  exists segs. split; auto. rewrite He. simpl.
  now rewrite <- app_assoc.
Qed.

(** The events of one file set in a run, in full: the creation of its
    folder, the events of its hits, and the writing of its report, whose
    root carries its name and description.  The events of the hits are
    errors logged, directories created and files copied for the hits of the
    set, as [HitEvent] has it; the folder of the set is not created again
    among them. *)
Definition SetRun (fileSet : string * string) (seg : list Event) : Prop :=
  let folder := outputFolderPath E ++ separator E ++ fst fileSet in
  exists body ents,
    seg = (CreatedDir folder
             :: body ++
             [WroteReport
                (folder ++ separator E ++ fst fileSet ++ ".xml")
                [Element "InterestingFileSet"
                   [("name", fst fileSet); ("description", snd fileSet)]
                   ents]])%list /\
    Forall (HitEvent E folder) body /\
    ~ In (CreatedDir folder) body.

Lemma saveFiles_run fuel setName setDescription hits st st' :
  saveFiles E fuel setName setDescription hits st = (st', Normal tt) ->
  exists seg,
    events st' = (events st ++ seg)%list /\
    SetRun (setName, setDescription) seg.
Proof.
  rewrite saveFiles_unfold.
  destruct (createDirectories E (events st) _); [|discriminate].
  destruct (saveFileHits_events E fuel (fileSetFolder E setName) hits
              (entered E st setName setDescription))
    as (evs & ents & He & Hd & Hh).
  destruct (saveFileHits E fuel _ hits _) as [st2 [[]|e|]]; try discriminate.
  destruct (openFileStream E (events st2) _); [|discriminate].
  intros [= <-]. simpl in *. rewrite He, Hd. eexists. split.
  - rewrite <- !app_assoc. simpl. reflexivity.
  - exists evs, ents. split; [reflexivity|]. split; [exact Hh|].
    intros Hin. rewrite Forall_forall in Hh. apply Hh in Hin.
    exact (HitEvent_not_folder Hin).
Qed.

Lemma saveFileSets_runs fuel hits sets :
  forall st st',
    saveFileSets E fuel sets hits st = (st', Normal tt) ->
    exists segs,
      events st' = (events st ++ List.concat segs)%list /\
      Forall2 SetRun sets segs.
Proof.
  induction sets as [|[name description] sets IH]; intros st st' Hrun.
  - injection Hrun as <-. exists []. simpl. now rewrite app_nil_r.
  - rewrite saveFileSets_cons in Hrun. simpl fst in Hrun. simpl snd in Hrun.
    destruct (saveFiles E fuel name description _ st) as [st1 [[]|e|]] eqn:Hs;
      try discriminate.
    apply saveFiles_run in Hs as (seg & He & Hseg).
    apply IH in Hrun as (segs & He' & Hsegs).
    exists (seg :: segs). split; [|now constructor].
    simpl. now rewrite He', He, <- app_assoc.
Qed.

Lemma reportBody_runs fuel st st' :
  reportBody E fuel st = (st', Normal tt) ->
  exists segs,
    events st' = (events st ++ CreatedDir (outputFolderPath E)
                    :: map LogError (errors grouping) ++ List.concat segs)%list /\
    Forall2 SetRun (fileSets grouping) segs.
Proof.
  rewrite reportBody_upTo, reportUpTo_unfold.
  destruct (createDirectories E (events st) _); [|discriminate].
  intros Hrun. apply saveFileSets_runs in Hrun as (segs & He & Hsegs).
  exists segs. split; auto. rewrite He. simpl.
  now rewrite <- app_assoc.
Qed.

(** The loop over the file sets runs to its end when the folder of every
    set can be created and the report of every set can be opened, whatever
    happens to the hits. *)
Lemma saveFileSets_completes rank fuel hits sets :
  DepthBounded E rank -> (forall id, rank id < fuel) ->
  (forall evs name, In name (map fst sets) ->
                    createDirectories E evs (fileSetFolder E name) = Done tt) ->
  (forall evs name, In name (map fst sets) ->
                    openFileStream E evs (reportFile E name) = Done tt) ->
  forall st, exists st', saveFileSets E fuel sets hits st = (st', Normal tt).
Proof.
  intros Hrank Hfuel.
  induction sets as [|[name description] sets IH]; intros Hmkdir Hopen st.
  - exists st. reflexivity.
  - rewrite saveFileSets_cons, saveFiles_unfold. simpl fst. simpl snd.
    rewrite (Hmkdir _ name (or_introl eq_refl)).
    match goal with
    | |- context [saveFileHits E fuel ?f ?h ?s] =>
        pose proof (saveFileHits_Normal f h Hrank Hfuel s) as Hn
    end.
    destruct (saveFileHits E fuel _ _ _) as [st2 r]. simpl in Hn. subst r.
    rewrite (Hopen _ name (or_introl eq_refl)).
    apply IH.
    + intros evs n Hin. apply Hmkdir. now right.
    + intros evs n Hin. apply Hopen. now right.
Qed.

(** C7. The file sets are taken in ascending order of their names, each
    name once, and the names are those carried by the set name attribute of
    some hit.  The image database being a tree and the fuel sufficient, a
    run in which the output folder and the folder of every set can be
    created and the report of every set can be opened saves all its file
    sets, whatever happens to the hits.  The trace of a run that saved all
    its file sets is, after the creation of the output folder and the
    logging of the hits without a set name, one segment per file set, in
    that order; each segment starts with the creation of the folder of its
    set and ends with its report, and in between only the hits of the set
    are exported, below that folder, which is not created a second time. *)
Theorem report_file_sets :
  forall (rank : N -> nat) (fuel : nat) (st : State),
    DepthBounded E rank -> (forall id, rank id < fuel) ->
    let g := groupArtifacts E (getArtifacts E) in
    StronglySorted string_lt (map fst (fileSets g)) /\
    (forall name,
        In name (map fst (fileSets g)) <->
        exists fileHit attr,
          In fileHit (getArtifacts E) /\ In attr (getAttributes fileHit) /\
          getAttributeTypeID attr = TSK_SET_NAME E /\
          getValueString attr = name) /\
    (forall st',
        reportBody E fuel st = (st', Normal tt) ->
        exists segs,
          events st' = (events st ++ CreatedDir (outputFolderPath E)
                          :: map LogError (errors g) ++ List.concat segs)%list /\
          Forall2 SetRun (fileSets g) segs) /\
    (createDirectories E (events st) (outputFolderPath E) = Done tt ->
     (forall evs name,
         In name (map fst (fileSets g)) ->
         createDirectories E evs (outputFolderPath E ++ separator E ++ name)
           = Done tt) ->
     (forall evs name,
         In name (map fst (fileSets g)) ->
         openFileStream E evs
           ((outputFolderPath E ++ separator E ++ name)
              ++ separator E ++ name ++ ".xml") = Done tt) ->
     exists st', reportBody E fuel st = (st', Normal tt)).
Proof.
  intros rank fuel st Hrank Hfuel g. split; [|split; [|split]].
  - apply fileSets_sorted.
  - intros name. apply fileSets_keys.
  - intros st' Hrun. now apply reportBody_runs with (fuel := fuel).
  - intros Hroot Hmkdir Hopen.
    rewrite reportBody_upTo, reportUpTo_unfold, Hroot.
    now apply saveFileSets_completes with (rank := rank).
Qed.

Lemma Forall2_segment_In sets segs fileSet :
  Forall2 SetSegment sets segs -> In fileSet sets ->
  exists seg, In seg segs /\ SetSegment fileSet seg.
Proof.
  induction 1 as [|fs seg sets segs Hseg _ IH]; intros Hin; [contradiction|].
  destruct Hin as [->|Hin].
  - exists seg. split; [now left | auto].
  - destruct (IH Hin) as (seg' & Hin' & Hs). exists seg'. split; [now right|auto].
Qed.

(** A report, if the event is the writing of one, is the report of one of
    the file sets [sets]: written to the file of the set, with a root that
    carries the name and the description of the set. *)
Definition ReportOf (sets : FileSets) (ev : Event) : Prop :=
  match ev with
  | WroteReport path doc =>
      exists name description ents,
        In (name, description) sets /\
        path = (outputFolderPath E ++ separator E ++ name)
                 ++ separator E ++ name ++ ".xml" /\
        doc = [Element "InterestingFileSet"
                 [("name", name); ("description", description)] ents]
  | _ => True
  end.

Lemma quiet_ReportOf sets ev : quiet ev -> ReportOf sets ev.
Proof. destruct ev; simpl; tauto. Qed.

Lemma ReportOf_incl sets sets' ev :
  incl sets sets' -> ReportOf sets ev -> ReportOf sets' ev.
Proof.
  intros Hincl. destruct ev; simpl; auto.
  intros (name & description & ents & Hin & Hp & Hd).
  exists name, description, ents. auto.
Qed.

(** Whatever its outcome, [saveFiles] writes no report but the one of its
    set. *)
Lemma saveFiles_reports fuel setName setDescription hits st :
  exists evs,
    events (fst (saveFiles E fuel setName setDescription hits st))
      = (events st ++ evs)%list /\
    Forall (ReportOf [(setName, setDescription)]) evs.
Proof.
  rewrite saveFiles_unfold.
  destruct (createDirectories E (events st) _).
  - destruct (saveFileHits_grows E fuel (fileSetFolder E setName) hits
                (entered E st setName setDescription))
      as ((evs & ents & He & Hd & Hq) & _).
    assert (Hq' : Forall (ReportOf [(setName, setDescription)])
                    (CreatedDir (fileSetFolder E setName) :: evs)).
    { constructor; [exact I|].
      eapply Forall_impl; [|exact Hq]. intros; now apply quiet_ReportOf. }
    destruct (saveFileHits E fuel _ hits _) as [st2 [[]|e|]]; simpl in *.
    + destruct (openFileStream E (events st2) _); simpl.
      * eexists. rewrite He, <- !app_assoc. split; [reflexivity|].
        simpl. apply Forall_app with (l1 := _ :: _). split; [exact Hq'|].
        constructor; [|constructor]. simpl.
        exists setName, setDescription, ents. split; [now left|].
        split; [reflexivity|]. rewrite Hd. reflexivity.
      * eexists. rewrite He, <- app_assoc. split; [reflexivity|exact Hq'].
    + eexists. rewrite He, <- app_assoc. split; [reflexivity|exact Hq'].
    + eexists. rewrite He, <- app_assoc. split; [reflexivity|exact Hq'].
  - exists []. simpl. rewrite app_nil_r. split; auto.
Qed.

Lemma saveFileSets_reports fuel hits sets :
  forall st,
  exists evs,
    events (fst (saveFileSets E fuel sets hits st)) = (events st ++ evs)%list /\
    Forall (ReportOf sets) evs.
Proof.
  induction sets as [|[name description] sets IH]; intros st.
  - exists []. simpl. rewrite app_nil_r. split; auto.
  - rewrite saveFileSets_cons. simpl fst. simpl snd.
    destruct (saveFiles_reports fuel name description
                (equal_range name hits) st) as (e1 & He1 & Hq1).
    assert (Hq1' : Forall (ReportOf ((name, description) :: sets)) e1).
    { eapply Forall_impl; [|exact Hq1]. intros ev.
      apply ReportOf_incl. intros x [<-|[]]. now left. }
    destruct (saveFiles E fuel name description _ st) as [st1 [[]|e|]];
      simpl in *.
    + destruct (IH st1) as (e2 & He2 & Hq2).
      exists (e1 ++ e2)%list. rewrite He2, He1, app_assoc. split; auto.
      apply Forall_app. split; auto.
      eapply Forall_impl; [|exact Hq2]. intros ev.
      apply ReportOf_incl. intros x Hx. now right.
    + exists e1. auto.
    + exists e1. auto.
Qed.

Lemma reportBody_reports fuel st :
  exists evs,
    events (fst (reportBody E fuel st)) = (events st ++ evs)%list /\
    Forall (ReportOf (fileSets grouping)) evs.
Proof.
  rewrite reportBody_upTo, reportUpTo_unfold.
  destruct (createDirectories E (events st) _).
  - match goal with
    | |- context [saveFileSets E fuel ?l ?h ?s] =>
        destruct (saveFileSets_reports fuel h l s) as (evs & He & Hq)
    end.
    simpl in He. eexists. rewrite He, <- app_assoc. split; [reflexivity|].
    simpl. constructor; [exact I|]. apply Forall_app. split; auto.
    apply Forall_forall. intros ev Hin.
    apply in_map_iff in Hin as (msg & <- & _). exact I.
  - exists []. simpl. rewrite app_nil_r. split; auto.
Qed.

(** C9. The grouping keeps one description per set name: the names of the
    map are distinct, and the description of a name is the one of the first
    set name attribute with that name, in the order of the hits and of
    their attributes.  Whatever the outcome of the run, every report it
    writes is the report of one of these sets, with a root that carries that
    name and that description; and in a run that saved all its file sets,
    every set has had its report written. *)
Theorem first_description_wins :
  forall (fuel : nat) (st : State),
    let sets := fileSets (groupArtifacts E (getArtifacts E)) in
    NoDup (map fst sets) /\
    (forall name description,
        In (name, description) sets <->
        lookup name (allDescriptions E (getArtifacts E)) = Some description) /\
    (exists evs,
        events (fst (reportBody E fuel st)) = (events st ++ evs)%list /\
        Forall (ReportOf sets) evs) /\
    (forall st',
        reportBody E fuel st = (st', Normal tt) ->
        forall name description,
          In (name, description) sets ->
          exists ents,
            In (WroteReport
                  ((outputFolderPath E ++ separator E ++ name)
                     ++ separator E ++ name ++ ".xml")
                  [Element "InterestingFileSet"
                     [("name", name); ("description", description)] ents])
               (events st')).
Proof.
  intros fuel st sets.
  pose proof (fileSets_sorted E (getArtifacts E)) as Hsorted.
  split; [|split; [|split]].
  - now apply SortedMap_NoDup.
  - intros name description. subst sets.
    rewrite (SortedMap_lookup_In name description Hsorted).
    now rewrite fileSets_lookup.
  - apply reportBody_reports.
  - intros st' Hrun name description Hin.
    apply reportBody_trace in Hrun as (segs & He & Hsegs).
    destruct (@Forall2_segment_In _ _ _ Hsegs Hin)
      as (seg & Hseg & body & ents & -> & _).
    exists ents. rewrite He. apply in_or_app. right. right.
    apply in_or_app. right. apply in_concat.
    eexists. split; [exact Hseg|]. right. apply in_or_app. right. now left.
Qed.

Lemma fold_insertHit_In l m x :
  In x (fold_left (insertHit) l m) <-> In x m \/ In x l.
Proof.
  revert m. induction l as [|p l IH]; intros m; simpl.
  - tauto.
  - rewrite IH. unfold insertHit. rewrite multimap_insert_In.
    destruct p. simpl. intuition congruence.
Qed.

Lemma invalid_no_set_name fileHit :
  (forall attr, In attr (getAttributes fileHit) ->
                getAttributeTypeID attr <> TSK_SET_NAME E) ->
  filter (isSetName E) (getAttributes fileHit) = [].
Proof.
  intros H. induction (getAttributes fileHit) as [|a l IH]; simpl; auto.
  unfold isSetName at 1.
  destruct (N.eqb_spec (getAttributeTypeID a) (TSK_SET_NAME E)) as [Heq|_].
  - exfalso. apply (H a); auto. now left.
  - apply IH. intros attr Hin. apply H. now right.
Qed.

(** C6. A hit without a set name attribute is logged and left out of the
    grouping: the file sets and the hits of the file sets are those of the
    blackboard without it, it is in the range of no set name, and the hits
    after it are grouped as usual.  The run, once the output folder exists,
    logs the error and goes on to save the file sets of the other hits. *)
Theorem malformed_hit_skipped :
  forall (before after : list TskBlackboardArtifact)
         (fileHit : TskBlackboardArtifact),
    getArtifacts E = (before ++ fileHit :: after)%list ->
    (forall attr, In attr (getAttributes fileHit) ->
                  getAttributeTypeID attr <> TSK_SET_NAME E) ->
    let g := groupArtifacts E (getArtifacts E) in
    let g' := groupArtifacts E (before ++ after) in
    fileSets g = fileSets g' /\
    fileSetHits g = fileSetHits g' /\
    (forall name, ~ In (name, fileHit) (fileSetHits g)) /\
    errors g = (errors (groupArtifacts E before)
                  ++ missingSetNameMessage fileHit
                  :: errors (groupArtifacts E after))%list /\
    (forall fuel st,
        createDirectories E (events st) (outputFolderPath E) = Done tt ->
        exists st1,
          In (LogError (missingSetNameMessage fileHit)) (events st1) /\
          reportBody E fuel st
          = saveFileSets E fuel (fileSets g') (fileSetHits g') st1).
Proof.
  intros before after fileHit Harts Hbad g g'.
  pose proof (invalid_no_set_name fileHit Hbad) as Hnone.
  assert (Hdesc : descriptions E fileHit = [])
    by (unfold descriptions; now rewrite Hnone).
  assert (Hmem : memberships E fileHit = [])
    by (unfold memberships; now rewrite Hnone).
  assert (Hvalid : valid E fileHit = false).
  { unfold valid. destruct (existsb (isSetName E) (getAttributes fileHit)) eqn:Hex; auto.
    apply existsb_exists in Hex as (attr & Hin & Hset).
    exfalso. apply (Hbad attr Hin). now apply N.eqb_eq. }
  unfold g, g', groupArtifacts in *. rewrite Harts.
  destruct (groupArtifacts_fold E (before ++ fileHit :: after) (mkGrouping [] [] []))
    as (Hs & Hh & He).
  destruct (groupArtifacts_fold E (before ++ after) (mkGrouping [] [] []))
    as (Hs' & Hh' & He').
  destruct (groupArtifacts_fold E before (mkGrouping [] [] [])) as (_ & _ & Heb).
  destruct (groupArtifacts_fold E after (mkGrouping [] [] [])) as (_ & _ & Hea).
  cbv zeta in *. simpl in *.
  rewrite flat_map_app in Hs, Hh, Hs', Hh'. simpl in Hs, Hh.
  rewrite Hdesc in Hs. rewrite Hmem in Hh. simpl in Hs, Hh.
  rewrite filter_app in He. simpl in He. rewrite Hvalid in He. simpl in He.
  rewrite map_app in He. simpl in He.
  assert (Hsets : fileSets (fold_left (groupArtifact E) (before ++ fileHit :: after)
                              (mkGrouping [] [] []))
                  = fileSets (fold_left (groupArtifact E) (before ++ after)
                                (mkGrouping [] [] []))) by congruence.
  assert (Hhits : fileSetHits (fold_left (groupArtifact E) (before ++ fileHit :: after)
                                 (mkGrouping [] [] []))
                  = fileSetHits (fold_left (groupArtifact E) (before ++ after)
                                   (mkGrouping [] [] []))) by congruence.
  split; [exact Hsets|]. split; [exact Hhits|]. split; [|split].
  - intros name Hin. rewrite Hh in Hin.
    apply fold_insertHit_In in Hin as [[]|Hin].
    rewrite <- flat_map_app in Hin.
    apply in_flat_map in Hin as (hit & _ & Hin).
    unfold memberships in Hin.
    apply in_map_iff in Hin as (attr & [= _ ->] & Hin).
    now rewrite Hnone in Hin.
  - now rewrite He, Heb, Hea.
  - intros fuel st Hroot.
    rewrite reportBody_upTo, reportUpTo_unfold, Hroot.
    unfold grouping, groupArtifacts. rewrite Harts.
    rewrite Hsets, Hhits.
    eexists. split; [|reflexivity]. simpl.
    apply in_or_app. right. right. rewrite He.
    apply in_map. apply in_or_app. right. now left.
Qed.

End Report.

(** ** A sample case *)

(** Was a directory created at [path]? *)
Definition created (path : string) (evs : list Event) : bool :=
  existsb (fun ev => match ev with
                     | CreatedDir p => String.eqb p path
                     | _ => false
                     end) evs.

(** Was a report written to [path]? *)
Definition wrote (path : string) (evs : list Event) : bool :=
  existsb (fun ev => match ev with
                     | WroteReport p _ => String.eqb p path
                     | _ => false
                     end) evs.

Module Sample.

Open Scope N_scope.

(** An image with two files at its root and a directory [Photos] that holds
    a file and a subdirectory with one more file. *)
Definition files (id : N) : Answer TskFile :=
  match id with
  | 1 => Done (mkFile 1 "report.txt" 1 "/img/report.txt" "0cc175b9")
  | 2 => Done (mkFile 2 ".bashrc" 1 "/img/.bashrc" "")
  | 10 => Done (mkFile 10 "Photos" 2 "/img/Photos" "")
  | 11 => Done (mkFile 11 "a.jpg" 1 "/img/Photos/a.jpg" "92eb5ffe")
  | 12 => Done (mkFile 12 "sub" 2 "/img/Photos/sub" "")
  | 13 => Done (mkFile 13 "b.jpg" 1 "/img/Photos/sub/b.jpg" "4a8a08f0")
  | _ => Failed "no such file"
  end.

Definition records (id : N) : Answer (list N) :=
  Done (if id =? 10 then [11; 12] else if id =? 12 then [13] else []).

Definition rank (id : N) : nat :=
  if id =? 10 then 2%nat else if id =? 12 then 1%nat else 0%nat.

Definition hit99 := mkArtifact 99 1 [mkAttr 38 "setA" "desc A"].
Definition hit100 := mkArtifact 100 1 [mkAttr 38 "setB" "desc B"].
Definition hit101 :=
  mkArtifact 101 10 [mkAttr 5 "comment" ""; mkAttr 38 "setA" "another A"].
Definition hit102 := mkArtifact 102 2 [mkAttr 5 "comment" ""].
Definition hit103 := mkArtifact 103 2 [mkAttr 38 "setA" "yet another A"].
Definition hit104 := mkArtifact 104 1 [mkAttr 38 "setC" "desc C"].

Definition artifacts : list TskBlackboardArtifact :=
  [hit99; hit100; hit101; hit102; hit103; hit104].

(** The services, with the directories that cannot be created and the files
    that cannot be copied. *)
Definition env (mkdirFails : string -> bool) (copyFails : N -> bool)
  : Services :=
  mkServices "/" "out" "0x42f1d0" 38 2 files records artifacts
    (fun _ path => if mkdirFails path then Failed "denied" else Done tt)
    (fun _ id _ => if copyFails id then Failed "read error" else Done tt)
    (fun _ _ => Done tt).

Definition allGood : Services := env (fun _ => false) (fun _ => false).
Definition noRoot : Services := env (String.eqb "out") (fun _ => false).
Definition noSetB : Services := env (String.eqb "out/setB") (fun _ => false).
Definition badNestedFile : Services := env (fun _ => false) (N.eqb 13).

Definition idle : State := mkState [] [] OK.

Lemma rank_bounded : forall id, (rank id < 5)%nat.
Proof.
  intros id. unfold rank.
  destruct (id =? 10); [lia|]. destruct (id =? 12); lia.
Qed.

Lemma sample_DepthBounded mkdirFails copyFails :
  DepthBounded (env mkdirFails copyFails) rank.
Proof.
  intros p fileRecs fileRec d Hrecs Hin Hget Hdir. simpl in Hrecs, Hget.
  unfold records in Hrecs. injection Hrecs as <-.
  destruct (N.eqb_spec p 10) as [->|Hp10].
  - destruct Hin as [<-|[<-|[]]]; simpl in Hget; injection Hget as <-.
    + discriminate.
    + simpl. unfold rank. simpl. lia.
  - destruct (N.eqb_spec p 12) as [->|Hp12]; [|contradiction].
    destruct Hin as [<-|[]]. simpl in Hget. injection Hget as <-.
    discriminate.
Qed.

(** The examples of the naming rules. *)
Example report_txt_5 :
  fst (saveInterestingFile allGood (mkFile 5 "report.txt" 1 "/img/a/report.txt" "")
         "out/setA" idle)
  = mkState [CopiedFile 5 "out/setA/report_5.txt"] [] OK.
Proof. reflexivity. Qed.

Example report_txt_9 :
  fst (saveInterestingFile allGood (mkFile 9 "report.txt" 1 "/img/b/report.txt" "")
         "out/setA" idle)
  = mkState [CopiedFile 9 "out/setA/report_9.txt"] [] OK.
Proof. reflexivity. Qed.

Example bashrc_3 :
  fst (saveInterestingFile allGood (mkFile 3 ".bashrc" 1 "/img/.bashrc" "")
         "out/setA" idle)
  = mkState [CopiedFile 3 "out/setA/.bashrc_3"] [] OK.
Proof. reflexivity. Qed.

Example photos_42 :
  events (fst (saveInterestingDirectory allGood 5
                 (mkFile 42 "Photos" 2 "/img/Photos" "") "setA" idle))
  = [CreatedDir "setA/Photos_42/Photos"].
Proof. reflexivity. Qed.

Example photos_10 :
  events (fst (saveInterestingDirectory allGood 5
                 (mkFile 10 "Photos" 2 "/img/Photos" "") "out/setA" idle))
  = [CreatedDir "out/setA/Photos_10/Photos";
     CopiedFile 11 "out/setA/Photos_10/Photos/a.jpg";
     CreatedDir "out/setA/Photos_10/Photos/sub";
     CopiedFile 13 "out/setA/Photos_10/Photos/sub/b.jpg"].
Proof. reflexivity. Qed.

(** The state of a sample run when the loop over the file sets is over. *)
Definition ran : State :=
  Eval vm_compute in fst (reportBody allGood 5 idle).

(** The state of the run without a folder for setB after setA. *)
Definition afterSetA : State :=
  Eval vm_compute in
    fst (reportUpTo noSetB 5 [("setA", "desc A")]
           (mkState [LogInfo started] [] OK)).

(** C8, on the sample: no output folder. *)
Lemma report_root_failure_witness :
  createDirectories noRoot ([] ++ [LogInfo started]) (outputFolderPath noRoot)
    = Failed "denied" /\
  report noRoot 5 [] =
  ([LogInfo started;
    LogError "0x42f1d0out' : denied";
    LogInfo finished],
   Normal FAIL).
Proof.
  split; [reflexivity|].
  exact (@report_root_failure noRoot 5 [] "denied" eq_refl).
Defined.

(** C1, on the sample: setA is saved, the folder of setB cannot be created,
    and the run ends there. *)
Lemma report_set_folder_failure_witness :
  fileSets (groupArtifacts noSetB (getArtifacts noSetB))
    = ([("setA", "desc A")] ++ ("setB", "desc B") :: [("setC", "desc C")])%list /\
  reportUpTo noSetB 5 [("setA", "desc A")]
    (mkState ([] ++ [LogInfo started]) [] OK) = (afterSetA, Normal tt) /\
  createDirectories noSetB (events afterSetA)
    (outputFolderPath noSetB ++ separator noSetB ++ "setB") = Failed "denied" /\
  report noSetB 5 [] =
  ((events afterSetA ++
    [LogError "0x42f1d0out' : denied";
     LogInfo finished])%list,
   Normal FAIL).
Proof.
  assert (H1 : fileSets (groupArtifacts noSetB (getArtifacts noSetB))
               = ([("setA", "desc A")] ++ ("setB", "desc B")
                    :: [("setC", "desc C")])%list) by reflexivity.
  assert (H2 : reportUpTo noSetB 5 [("setA", "desc A")]
                 (mkState ([] ++ [LogInfo started]) [] OK)
               = (afterSetA, Normal tt)) by (vm_compute; reflexivity).
  assert (H3 : createDirectories noSetB (events afterSetA)
                 (outputFolderPath noSetB ++ separator noSetB ++ "setB")
               = Failed "denied") by reflexivity.
  split; [exact H1|]. split; [exact H2|]. split; [exact H3|].
  exact (@report_set_folder_failure noSetB 5 [] [("setA", "desc A")]
           [("setC", "desc C")] "setB" "desc B" afterSetA "denied" H1 H2 H3).
Defined.

(** C1 as the specification states it fails on the sample: the folder of
    setB cannot be created, the folder of setC could be, and yet setC, which
    comes after setB, gets no folder and no report. *)
Lemma set_folder_failure_counterexample :
  map fst (fileSets (groupArtifacts noSetB (getArtifacts noSetB)))
    = ["setA"; "setB"; "setC"] /\
  (forall evs, createDirectories noSetB evs "out/setC" = Done tt) /\
  snd (report noSetB 5 []) = Normal FAIL /\
  created "out/setA" (fst (report noSetB 5 [])) = true /\
  created "out/setC" (fst (report noSetB 5 [])) = false /\
  wrote "out/setC/setC.xml" (fst (report noSetB 5 [])) = false.
Proof. repeat split; vm_compute; reflexivity. Qed.

(** C2 as the specification states it fails on the sample: the report of
    setA is written to setA.xml, and nothing is written to setA.manifest. *)
Lemma manifest_path_counterexample :
  snd (report allGood 5 []) = Normal OK /\
  wrote "out/setA/setA.xml" (fst (report allGood 5 [])) = true /\
  wrote "out/setA/setA.manifest" (fst (report allGood 5 [])) = false.
Proof. repeat split; vm_compute; reflexivity. Qed.

(** The state in which [saveFiles] starts the loop over the hits of setA. *)
Definition inSetA : State :=
  mkState [CreatedDir "out"; CreatedDir "out/setA"]
          [reportRoot "setA" "desc A"] OK.

Definition afterHit99 : State :=
  Eval vm_compute in
    fst (saveFileHits badNestedFile 5 "out/setA" [("setA", hit99)] inSetA).

Definition afterHit101 : State :=
  Eval vm_compute in
    fst (saveFileHit badNestedFile 5 "out/setA" ("setA", hit101) afterHit99).

(** C2, on the sample: the report of setB. *)
Lemma saveFiles_writes_report_witness :
  DepthBounded allGood rank /\ (forall id, (rank id < 5)%nat) /\
  createDirectories allGood (events (mkState [CreatedDir "out"] [] OK))
    (outputFolderPath allGood ++ separator allGood ++ "setB") = Done tt /\
  wrote "out/setB/setB.xml"
    (events (fst (saveFiles allGood 5 "setB" "desc B" [("setB", hit100)]
                    (mkState [CreatedDir "out"] [] OK)))) = true.
Proof.
  split; [exact (@sample_DepthBounded _ _)|]. split; [exact rank_bounded|].
  split; [reflexivity|].
  destruct (@saveFiles_writes_report allGood 5 rank "setB" "desc B"
              [("setB", hit100)] (mkState [CreatedDir "out"] [] OK)
              (@sample_DepthBounded _ _) rank_bounded eq_refl)
    as (st2 & ents & _ & _ & Hsave).
  rewrite Hsave. simpl. unfold wrote. rewrite existsb_app. simpl.
  apply orb_true_r.
Defined.

(** C3, on the sample: in setA the first hit is exported, the export of the
    directory of the second hit fails on a nested file, and the third hit is
    exported all the same. *)
Lemma saveFileHits_isolates_failure_witness :
  saveFileHits badNestedFile 5 "out/setA" [("setA", hit99)] inSetA
    = (afterHit99, Normal tt) /\
  saveFileHit badNestedFile 5 "out/setA" ("setA", hit101) afterHit99
    = (afterHit101, Throw (TskException "read error")) /\
  returnCode
    (fst (saveFileHits badNestedFile 5 "out/setA"
            ([("setA", hit99)] ++ ("setA", hit101) :: [("setA", hit103)])%list
            inSetA)) = FAIL.
Proof.
  assert (H1 : saveFileHits badNestedFile 5 "out/setA" [("setA", hit99)] inSetA
               = (afterHit99, Normal tt)) by (vm_compute; reflexivity).
  assert (H2 : saveFileHit badNestedFile 5 "out/setA" ("setA", hit101) afterHit99
               = (afterHit101, Throw (TskException "read error")))
    by (vm_compute; reflexivity).
  split; [exact H1|]. split; [exact H2|].
  exact (proj1 (proj2 (proj2
           (@saveFileHits_isolates_failure badNestedFile 5 "out/setA"
              [("setA", hit99)] [("setA", hit103)] ("setA", hit101)
              inSetA afterHit99 afterHit101 "read error" H1 H2)))).
Defined.

(** What the report of setA holds at the end of that loop: the entry of the
    first hit, what the second hit added before it failed, and the entry of
    the third hit. *)
Example partial_failure_report :
  map (fun entry => (tag entry, children entry))
    (entries (reportDoc
       (fst (saveFileHits badNestedFile 5 "out/setA"
               [("setA", hit99); ("setA", hit101); ("setA", hit103)] inSetA))))
  = [("SavedFile",
      [Element "Path" [] [Text "out/setA/report_1.txt"];
       Element "OriginalPath" [] [Text "/img/report.txt"];
       Element "MD5" [] [Text "0cc175b9"]]);
     ("SavedDirectory",
      [Element "Path" [] [Text "out/setA/Photos_10/Photos"];
       Element "OriginalPath" [] [Text "/img/Photos"]]);
     ("SavedFile",
      [Element "Path" [] [Text "out/setA/Photos_10/Photos/a.jpg"];
       Element "OriginalPath" [] [Text "/img/Photos/a.jpg"];
       Element "MD5" [] [Text "92eb5ffe"]]);
     ("SavedFile",
      [Element "Path" [] [Text "out/setA/.bashrc_2"];
       Element "OriginalPath" [] [Text "/img/.bashrc"];
       Element "MD5" [] [Text ""]])].
Proof. vm_compute. reflexivity. Qed.

Lemma nulFree_report_txt : nulFree "report.txt".
Proof. unfold nulFree, hasChar. simpl. intuition discriminate. Qed.

Lemma nulFree_out_setA : nulFree "out/setA".
Proof. unfold nulFree, hasChar. simpl. intuition discriminate. Qed.

Lemma SavedName_report_txt_5 : SavedName "report.txt" 5 "report_5.txt".
Proof.
  apply (@saved_extension "report.txt" 5 "report" "txt").
  - reflexivity.
  - unfold hasChar. simpl. intuition discriminate.
  - discriminate.
Qed.

(** C4, on the sample: report.txt with id 5. *)
Lemma saveInterestingFile_name_witness :
  nulFree "report.txt" /\ nulFree "out/setA" /\
  saveInterestingFile allGood
    (mkFile 5 "report.txt" 1 "/img/a/report.txt" "") "out/setA" idle
  = (mkState [CopiedFile 5 "out/setA/report_5.txt"] [] OK, Normal tt).
Proof.
  split; [exact nulFree_report_txt|]. split; [exact nulFree_out_setA|].
  exact (proj2 (@saveInterestingFile_name allGood
                  (mkFile 5 "report.txt" 1 "/img/a/report.txt" "")
                  "out/setA" idle nulFree_report_txt nulFree_out_setA)
               "report_5.txt" SavedName_report_txt_5).
Defined.

Lemma hit102_no_set_name :
  forall attr, In attr (getAttributes hit102) ->
               getAttributeTypeID attr <> TSK_SET_NAME allGood.
Proof. intros attr [<-|[]]. discriminate. Qed.

(** C6, on the sample: the hit 102 has no set name. *)
Lemma malformed_hit_skipped_witness :
  getArtifacts allGood = ([hit99; hit100; hit101] ++ hit102 :: [hit103; hit104])%list /\
  (forall attr, In attr (getAttributes hit102) ->
                getAttributeTypeID attr <> TSK_SET_NAME allGood) /\
  (forall name,
      ~ In (name, hit102)
          (fileSetHits (groupArtifacts allGood (getArtifacts allGood)))) /\
  exists st1,
    In (LogError (missingSetNameMessage hit102)) (events st1) /\
    reportBody allGood 5 idle
    = saveFileSets allGood 5
        (fileSets (groupArtifacts allGood [hit99; hit100; hit101; hit103; hit104]))
        (fileSetHits (groupArtifacts allGood [hit99; hit100; hit101; hit103; hit104]))
        st1.
Proof.
  split; [reflexivity|]. split; [exact hit102_no_set_name|].
  destruct (@malformed_hit_skipped allGood [hit99; hit100; hit101]
              [hit103; hit104] hit102 eq_refl hit102_no_set_name)
    as (_ & _ & Hnone & _ & Hrun).
  split; [exact Hnone|].
  exact (Hrun 5%nat idle eq_refl).
Defined.

Lemma sample_run : reportBody allGood 5 idle = (ran, Normal tt).
Proof. vm_compute. reflexivity. Qed.

Lemma sample_children :
  forall p fileRecs fileRec,
    getFileRecords allGood p = Done fileRecs -> In fileRec fileRecs ->
    exists file, getFile allGood fileRec = Done file.
Proof.
  intros p fileRecs fileRec Hrecs Hin. simpl in *. unfold records in Hrecs.
  injection Hrecs as <-.
  destruct (p =? 10).
  - destruct Hin as [<-|[<-|[]]]; simpl; eauto.
  - destruct (p =? 12); [|contradiction].
    destruct Hin as [<-|[]]; simpl; eauto.
Qed.

Lemma sample_hits :
  forall fileHit, In fileHit (getArtifacts allGood) ->
                  exists file, getFile allGood (getObjectID fileHit) = Done file.
Proof.
  intros fileHit Hin. simpl in Hin.
  repeat (destruct Hin as [<-|Hin]; [simpl; eauto|]). contradiction.
Qed.

Definition photos : TskFile := mkFile 10 "Photos" 2 "/img/Photos" "".

Lemma b_jpg_below_photos :
  PlainPath allGood "out/setA/Photos_10/Photos" 10
    "out/setA/Photos_10/Photos/sub/b.jpg"
    (mkFile 13 "b.jpg" 1 "/img/Photos/sub/b.jpg" "4a8a08f0").
Proof.
  apply (@plain_nested allGood "out/setA/Photos_10/Photos" 10 [11; 12] 12
           (mkFile 12 "sub" 2 "/img/Photos/sub" ""));
    [reflexivity | simpl; auto | reflexivity | reflexivity |].
  apply (@plain_child allGood "out/setA/Photos_10/Photos/sub" 12 [13] 13
           (mkFile 13 "b.jpg" 1 "/img/Photos/sub/b.jpg" "4a8a08f0"));
    [reflexivity | simpl; auto | reflexivity].
Qed.

(** C5, on the sample: the export of the directory Photos ends normally and
    the file of its subdirectory is copied under the plain names. *)
Lemma saveInterestingDirectory_paths_witness :
  DepthBounded allGood rank /\ (rank (getId photos) < 5)%nat /\
  snd (saveInterestingDirectory allGood 5 photos "out/setA" idle) = Normal tt /\
  In (CopiedFile 13 "out/setA/Photos_10/Photos/sub/b.jpg")
     (events (fst (saveInterestingDirectory allGood 5 photos "out/setA" idle))).
Proof.
  split; [exact (@sample_DepthBounded _ _)|]. split; [exact (rank_bounded _)|].
  destruct (@saveInterestingDirectory_paths allGood rank 5%nat photos
              "out/setA" idle (@sample_DepthBounded _ _) (rank_bounded _))
    as (_ & items & He & _ & Hall & Hends).
  assert (Hnormal :
            snd (saveInterestingDirectory allGood 5 photos "out/setA" idle)
            = Normal tt).
  { apply Hends.
    - intros p. eexists. reflexivity.
    - exact sample_children.
    - reflexivity.
    - reflexivity. }
  split; [exact Hnormal|].
  rewrite He. apply in_or_app. right. right.
  exact (Hall Hnormal _ _ b_jpg_below_photos).
Defined.

(** C7, on the sample: a nested file cannot be copied, and the three file
    sets are saved all the same, in the order of their names. *)
Lemma report_file_sets_witness :
  DepthBounded badNestedFile rank /\ (forall id, (rank id < 5)%nat) /\
  StronglySorted string_lt ["setA"; "setB"; "setC"] /\
  exists st' segs,
    reportBody badNestedFile 5 idle = (st', Normal tt) /\
    events st'
      = (events idle ++ CreatedDir "out"
           :: map LogError [missingSetNameMessage hit102] ++ List.concat segs)%list /\
    List.length segs = 3%nat.
Proof.
  split; [exact (@sample_DepthBounded _ _)|]. split; [exact rank_bounded|].
  destruct (@report_file_sets badNestedFile rank 5%nat idle
              (@sample_DepthBounded _ _) rank_bounded)
    as (Hsorted & _ & Htrace & Hends).
  split; [exact Hsorted|].
  destruct (Hends eq_refl (fun _ _ _ => eq_refl) (fun _ _ _ => eq_refl))
    as (st' & Hrun).
  destruct (Htrace st' Hrun) as (segs & He & Hsegs).
  exists st', segs. split; [exact Hrun|]. split; [exact He|].
  apply Forall2_length in Hsegs. symmetry. exact Hsegs.
Defined.

(** C9, on the sample: setA has three descriptions, the first one is kept
    and written to the report. *)
Lemma first_description_wins_witness :
  reportBody allGood 5 idle = (ran, Normal tt) /\
  (In ("setA", "desc A")
      (fileSets (groupArtifacts allGood (getArtifacts allGood))) <->
   lookup "setA" [("setA", "desc A"); ("setB", "desc B");
                  ("setA", "another A"); ("setA", "yet another A");
                  ("setC", "desc C")] = Some "desc A") /\
  exists ents,
    In (WroteReport "out/setA/setA.xml"
          [Element "InterestingFileSet"
             [("name", "setA"); ("description", "desc A")] ents])
       (events ran).
Proof.
  split; [exact sample_run|].
  destruct (@first_description_wins allGood 5 idle)
    as (_ & Hfirst & _ & Hwritten).
  split; [exact (Hfirst "setA" "desc A")|].
  exact (Hwritten ran sample_run "setA" "desc A" (or_introl eq_refl)).
Defined.


End Sample.

(** * Further properties of the module *)

(** ** The ids in the saved names keep the saved paths apart *)

(** Two splits of one string at the same position are the same split. *)
Lemma string_app_inj_length (a1 a2 x y : string) :
  String.length a1 = String.length a2 -> a1 ++ x = a2 ++ y ->
  a1 = a2 /\ x = y.
Proof.
  revert a2. induction a1 as [|c a1 IH]; intros [|c2 a2] Hlen Heq;
    try discriminate; simpl in *.
  - auto.
  - injection Heq as -> Heq. injection Hlen as Hlen.
    destruct (IH _ Hlen Heq) as [-> ->]. auto.
Qed.

(** Of two decompositions of one string, the shorter head is a prefix of
    the longer one. *)
Lemma string_app_prefix (u v w x : string) :
  u ++ v = w ++ x -> String.length u <= String.length w ->
  exists z, w = u ++ z.
Proof.
  revert w. induction u as [|c u IH]; intros w Heq Hlen; simpl in *.
  - now exists w.
  - destruct w as [|c2 w]; simpl in *; [lia|].
    injection Heq as -> Heq.
    destruct (IH w Heq) as (z & ->); [lia|]. now exists z.
Qed.

(** A string splits in one way only at the last occurrence of a
    character. *)
Lemma split_last_unique c a1 e1 a2 e2 :
  ~ hasChar c e1 -> ~ hasChar c e2 ->
  a1 ++ String c e1 = a2 ++ String c e2 -> a1 = a2 /\ e1 = e2.
Proof.
  intros H1 H2 Heq.
  pose proof (@rfind_last c a1 e1 H1) as R1.
  pose proof (@rfind_last c a2 e2 H2) as R2.
  rewrite Heq, R2 in R1. injection R1 as Hlen.
  destruct (string_app_inj_length a1 a2 _ _ (eq_sym Hlen) Heq) as [-> Hs].
  injection Hs as ->. auto.
Qed.

Definition digits : list ascii :=
  ["0"; "1"; "2"; "3"; "4"; "5"; "6"; "7"; "8"; "9"]%char.

Lemma string_of_uint_digits d c :
  hasChar c (NilEmpty.string_of_uint d) -> In c digits.
Proof.
  unfold hasChar, digits. induction d; simpl; intros H;
    try contradiction;
    (destruct H as [<-|H]; [simpl; intuition | now apply IHd]).
Qed.

Lemma decimal_digits n c : hasChar c (decimal n) -> In c digits.
Proof. apply string_of_uint_digits. Qed.

Lemma decimal_no_dot n : ~ hasChar "."%char (decimal n).
Proof.
  intros H. apply decimal_digits in H. unfold digits in H. simpl in H.
  intuition discriminate.
Qed.

Lemma decimal_no_underscore n : ~ hasChar "_"%char (decimal n).
Proof.
  intros H. apply decimal_digits in H. unfold digits in H. simpl in H.
  intuition discriminate.
Qed.

Lemma decimal_nonempty n : 1 <= String.length (decimal n).
Proof.
  unfold decimal. destruct n as [|p]; simpl; [lia|].
  pose proof (DecimalPos.Unsigned.to_uint_nonnil p) as Hnil.
  destruct (Pos.to_uint p); simpl; try lia. congruence.
Qed.

(** Different numbers print differently. *)
Lemma decimal_inj n m : decimal n = decimal m -> n = m.
Proof.
  unfold decimal. intros H.
  apply DecimalN.Unsigned.to_uint_inj.
  pose proof (NilEmpty.usu (N.to_uint n)) as Hn.
  pose proof (NilEmpty.usu (N.to_uint m)) as Hm.
  rewrite H in Hn. congruence.
Qed.

Lemma saved_regroup (stem d rest : string) :
  stem ++ "_" ++ d ++ rest = (stem ++ "_" ++ d) ++ rest.
Proof. now rewrite string_app_assoc. Qed.

(** The name and the id can be read back from a saved name. *)
Lemma SavedName_inj n1 i1 n2 i2 saved :
  SavedName n1 i1 saved -> SavedName n2 i2 saved -> n1 = n2 /\ i1 = i2.
Proof.
  assert (Hsuffix : forall x1 j1 x2 j2,
             x1 ++ "_" ++ decimal j1 = x2 ++ "_" ++ decimal j2 ->
             x1 = x2 /\ j1 = j2).
  { intros x1 j1 x2 j2 H.
    apply split_last_unique in H as [-> H];
      auto using decimal_no_underscore, decimal_inj. }
  assert (Hdot : forall stem ext j, stem <> "" -> ~ hasChar "."%char ext ->
             exists pos, rfind "."%char (stem ++ "_" ++ decimal j ++ "." ++ ext)
                         = Some (S pos)).
  { intros stem ext j Hstem Hext.
    rewrite saved_regroup.
    change ("." ++ ext) with (String "." ext).
    rewrite rfind_last by assumption.
    destruct stem as [|a stem]; [congruence|]. simpl. eauto. }
  assert (Hnodot : forall n j,
             ~ hasChar "."%char n \/
             (exists ext, n = "." ++ ext /\ ~ hasChar "."%char ext) ->
             rfind "."%char (n ++ "_" ++ decimal j) = None \/
             rfind "."%char (n ++ "_" ++ decimal j) = Some 0).
  { intros n j [Hno | (ext & -> & Hext)].
    - left. apply rfind_None. rewrite hasChar_app. intros [H|H]; [tauto|].
      change ("_" ++ decimal j) with (String "_" (decimal j)) in H.
      unfold hasChar in H. simpl in H. destruct H as [H|H]; [discriminate|].
      now apply (decimal_no_dot j).
    - right. change (("." ++ ext) ++ "_" ++ decimal j)
        with ("" ++ String "." (ext ++ "_" ++ decimal j)).
      apply rfind_last. rewrite hasChar_app. intros [H|H]; [tauto|].
      change ("_" ++ decimal j) with (String "_" (decimal j)) in H.
      unfold hasChar in H. simpl in H. destruct H as [H|H]; [discriminate|].
      now apply (decimal_no_dot j). }
  intros H1 H2.
  inversion H1 as [stem1 ext1 Hn1 He1 Hs1 Hsaved1 | ext1 Hn1 He1 Hsaved1 | Hno1 Hsaved1];
    inversion H2 as [stem2 ext2 Hn2 He2 Hs2 Hsaved2 | ext2 Hn2 He2 Hsaved2 | Hno2 Hsaved2].
  - rewrite <- Hsaved2 in Hsaved1.
    rewrite !saved_regroup in Hsaved1.
    change ("." ++ ext1) with (String "." ext1) in Hsaved1.
    change ("." ++ ext2) with (String "." ext2) in Hsaved1.
    apply split_last_unique in Hsaved1 as [Hhead ->]; auto.
    apply Hsuffix in Hhead as [-> ->]. subst. auto.
  - exfalso. destruct (Hdot stem1 ext1 i1 Hs1 He1) as (pos & Hp).
    rewrite Hsaved1, <- Hsaved2 in Hp.
    destruct (Hnodot n2 i2) as [H|H]; [eauto|congruence|congruence].
  - exfalso. destruct (Hdot stem1 ext1 i1 Hs1 He1) as (pos & Hp).
    rewrite Hsaved1, <- Hsaved2 in Hp.
    destruct (Hnodot n2 i2) as [H|H]; [eauto|congruence|congruence].
  - exfalso. destruct (Hdot stem2 ext2 i2 Hs2 He2) as (pos & Hp).
    rewrite Hsaved2, <- Hsaved1 in Hp.
    destruct (Hnodot n1 i1) as [H|H]; [eauto|congruence|congruence].
  - rewrite <- Hsaved2 in Hsaved1. now apply Hsuffix.
  - rewrite <- Hsaved2 in Hsaved1. now apply Hsuffix.
  - exfalso. destruct (Hdot stem2 ext2 i2 Hs2 He2) as (pos & Hp).
    rewrite Hsaved2, <- Hsaved1 in Hp.
    destruct (Hnodot n1 i1) as [H|H]; [eauto|congruence|congruence].
  - rewrite <- Hsaved2 in Hsaved1. now apply Hsuffix.
  - rewrite <- Hsaved2 in Hsaved1. now apply Hsuffix.
Qed.

(** A directory name cannot be longer than another one and give the same
    target: the longer name would put its '_' among the digits of the id
    of the shorter one. *)
Lemma target_longer_absurd (n1 n2 sep : string) (i1 i2 : N) :
  String.length n1 < String.length n2 ->
  n1 ++ "_" ++ decimal i1 ++ sep ++ n1 = n2 ++ "_" ++ decimal i2 ++ sep ++ n2 ->
  False.
Proof.
  intros Hlen Heq.
  destruct (string_app_prefix n1 _ n2 _ Heq) as (z & ->); [lia|].
  rewrite string_app_assoc in Heq. apply string_app_inv_head in Heq.
  rewrite string_app_length in Hlen.
  destruct z as [|c z]; simpl in Hlen; [lia|].
  injection Heq as <- Heq.
  change (decimal i1 ++ sep ++ n1
          = z ++ "_" ++ decimal i2 ++ sep ++ n1 ++ "_" ++ z) in Heq.
  rewrite <- (string_app_assoc z "_") in Heq.
  assert (Hl : String.length (z ++ "_") <= String.length (decimal i1)).
  { pose proof (f_equal String.length Heq) as Hl.
    repeat rewrite string_app_length in Hl.
    rewrite string_app_length.
    change (String.length "_") with 1 in *. lia. }
  symmetry in Heq.
  destruct (string_app_prefix (z ++ "_") _ (decimal i1) _ Heq Hl) as (zz & Hd).
  apply (decimal_no_underscore i1). rewrite Hd.
  rewrite !hasChar_app. left. right. unfold hasChar. simpl. now left.
Qed.

Lemma target_inj (n1 n2 sep : string) (i1 i2 : N) :
  n1 ++ "_" ++ decimal i1 ++ sep ++ n1 = n2 ++ "_" ++ decimal i2 ++ sep ++ n2 ->
  n1 = n2 /\ i1 = i2.
Proof.
  intros Heq.
  destruct (Nat.lt_trichotomy (String.length n1) (String.length n2))
    as [Hlt|[Hlen|Hgt]].
  - exfalso. eapply target_longer_absurd; eauto.
  - destruct (string_app_inj_length n1 n2 _ _ Hlen Heq) as [-> Hrest].
    split; auto. simpl in Hrest. injection Hrest as Hrest.
    pose proof (f_equal String.length Hrest) as Hl.
    rewrite !string_app_length in Hl.
    assert (Hd : String.length (decimal i1) = String.length (decimal i2)) by lia.
    destruct (string_app_inj_length _ _ _ _ Hd Hrest) as [Hdec _].
    now apply decimal_inj.
  - exfalso. symmetry in Heq. eapply target_longer_absurd; eauto.
Qed.

Section Collisions.

Variable E : Services.

(** What [saveInterestingFile] does with a file whose saved name is known. *)
Lemma saveInterestingFile_at file folder saved st :
  nulFree (getName file) -> nulFree folder ->
  SavedName (getName file) (getId file) saved ->
  saveInterestingFile E file folder st =
  match copyFile E (events st) (getId file) (folder ++ separator E ++ saved) with
  | Done _ =>
      (mkState (events st ++ [CopiedFile (getId file) (folder ++ separator E ++ saved)])
               (addEntries (reportDoc st)
                  [fileElement E file (folder ++ separator E ++ saved)])
               (returnCode st), Normal tt)
  | Failed msg => (st, Throw (TskException msg))
  end.
Proof.
  intros Hname Hfolder Hsaved. unfold saveInterestingFile.
  rewrite (saved_name_rule Hsaved), (c_str_nulFree Hfolder),
    (c_str_nulFree (SavedName_nulFree Hname Hsaved)).
  unfold bind, fileManager_copyFile, emit, throw.
  destruct (copyFile E (events st) (getId file) _); [|reflexivity].
  now rewrite addFileToReport_spec.
Qed.

(** X1. Two files saved to the folder of one file set are copied to the
    same path only if they have the same name and the same id: the id in
    the saved name keeps files that share a name apart, and no other pair of
    a name and an id gives the same saved name. *)
Theorem saveInterestingFile_no_collision :
  forall (file1 file2 : TskFile) (fileSetFolderPath : string)
         (st1 st2 st1' st2' : State),
    nulFree (getName file1) -> nulFree (getName file2) ->
    nulFree fileSetFolderPath ->
    saveInterestingFile E file1 fileSetFolderPath st1 = (st1', Normal tt) ->
    saveInterestingFile E file2 fileSetFolderPath st2 = (st2', Normal tt) ->
    exists path1 path2,
      events st1' = (events st1 ++ [CopiedFile (getId file1) path1])%list /\
      events st2' = (events st2 ++ [CopiedFile (getId file2) path2])%list /\
      (path1 = path2 ->
       getName file1 = getName file2 /\ getId file1 = getId file2).
Proof.
  intros file1 file2 folder st1 st2 st1' st2' Hn1 Hn2 Hf Hrun1 Hrun2.
  destruct (SavedName_total (getName file1) (getId file1)) as (s1 & Hs1).
  destruct (SavedName_total (getName file2) (getId file2)) as (s2 & Hs2).
  rewrite (@saveInterestingFile_at file1 folder s1 st1 Hn1 Hf Hs1) in Hrun1.
  rewrite (@saveInterestingFile_at file2 folder s2 st2 Hn2 Hf Hs2) in Hrun2.
  destruct (copyFile E (events st1) _ _); [|discriminate].
  destruct (copyFile E (events st2) _ _); [|discriminate].
  injection Hrun1 as <-. injection Hrun2 as <-.
  eexists _, _. split; [reflexivity|]. split; [reflexivity|].
  intros Heq. apply string_app_inv_head in Heq.
  apply string_app_inv_head in Heq. subst s2.
  eapply SavedName_inj; eauto.
Qed.

(** X2. Two directories saved to the folder of one file set get the same
    target directory only if they have the same name and the same id. *)
Theorem saveInterestingDirectory_no_collision :
  forall (fuel : nat) (dir1 dir2 : TskFile) (fileSetFolderPath : string)
         (st1 st2 : State) (target1 target2 : string)
         (rest1 rest2 : list Event),
    events (fst (saveInterestingDirectory E fuel dir1 fileSetFolderPath st1))
      = (events st1 ++ CreatedDir target1 :: rest1)%list ->
    events (fst (saveInterestingDirectory E fuel dir2 fileSetFolderPath st2))
      = (events st2 ++ CreatedDir target2 :: rest2)%list ->
    target1 = target2 ->
    getName dir1 = getName dir2 /\ getId dir1 = getId dir2.
Proof.
  intros fuel dir1 dir2 folder st1 st2 t1 t2 rest1 rest2 H1 H2 Heq.
  assert (Htarget : forall dir st t rest,
             events (fst (saveInterestingDirectory E fuel dir folder st))
               = (events st ++ CreatedDir t :: rest)%list ->
             t = directoryTarget E dir folder).
  { intros dir st t rest H.
    pose proof (saveInterestingDirectory_items E fuel dir folder st) as Hi.
    cbv zeta in Hi.
    destruct (createDirectories E (events st) (directoryTarget E dir folder)).
    - destruct Hi as (items & (He & _) & _). rewrite He in H.
      apply app_inv_head in H. now injection H.
    - rewrite Hi in H. simpl in H.
      rewrite <- (app_nil_r (events st)) in H at 1.
      apply app_inv_head in H. discriminate. }
  apply Htarget in H1. apply Htarget in H2. subst t1 t2.
  unfold directoryTarget in Heq.
  apply string_app_inv_head in Heq. apply string_app_inv_head in Heq.
  now apply target_inj in Heq.
Qed.

End Collisions.

(** ** What a run leaves on disk, in the log and in the reports *)

(** The paths files were copied to, in order. *)
Definition copiedPaths (evs : list Event) : list string :=
  flat_map (fun ev => match ev with CopiedFile _ path => [path] | _ => [] end) evs.

(** The paths of the directories created, in order. *)
Definition createdPaths (evs : list Event) : list string :=
  flat_map (fun ev => match ev with CreatedDir path => [path] | _ => [] end) evs.

(** The messages of the errors logged, in order. *)
Definition errorsOf (evs : list Event) : list string :=
  flat_map (fun ev => match ev with LogError msg => [msg] | _ => [] end) evs.

(** The text of the first child of an entry: its [Path]. *)
Definition pathOfEntry (entry : Node) : string :=
  match entry with
  | Element _ _ (Element _ _ (Text path :: _) :: _) => path
  | _ => ""
  end.

(** The paths recorded by the [SavedFile] entries, in order. *)
Definition savedFilePaths (ents : list Node) : list string :=
  map pathOfEntry (filter (fun e => String.eqb (tag e) "SavedFile") ents).

(** The paths recorded by the [SavedDirectory] entries, in order. *)
Definition savedDirectoryPaths (ents : list Node) : list string :=
  map pathOfEntry (filter (fun e => String.eqb (tag e) "SavedDirectory") ents).

(** [s] starts with [p]. *)
Definition Prefix (p s : string) : Prop := exists rest, s = p ++ rest.

(** The creation of a directory or the copy of a file at a path that starts
    with [root]. *)
Definition Materialised (root : string) (ev : Event) : Prop :=
  match ev with
  | CreatedDir path | CopiedFile _ path => Prefix root path
  | _ => False
  end.

(** An event that touches no path but paths that start with [root]. *)
Definition Under (root : string) (ev : Event) : Prop :=
  match ev with
  | CreatedDir path | CopiedFile _ path | WroteReport path _ => Prefix root path
  | LogError _ | LogInfo _ => True
  end.

Lemma Prefix_refl s : Prefix s s.
Proof.
  exists "". induction s as [|a s IH]; simpl; congruence.
Qed.

Lemma Prefix_app p s t : Prefix p s -> Prefix p (s ++ t).
Proof. intros (r & ->). exists (r ++ t). apply string_app_assoc. Qed.

Lemma Prefix_trans p q s : Prefix p q -> Prefix q s -> Prefix p s.
Proof. intros Hpq (r & ->). now apply Prefix_app. Qed.

Lemma Materialised_weaken root root' ev :
  Prefix root root' -> Materialised root' ev -> Materialised root ev.
Proof. intros Hp. destruct ev; simpl; eauto using Prefix_trans. Qed.

Lemma Materialised_Under root ev : Materialised root ev -> Under root ev.
Proof. destruct ev; simpl; tauto. Qed.

Lemma c_str_app a b : nulFree a -> c_str (a ++ b) = a ++ c_str b.
Proof.
  unfold nulFree, hasChar. induction a as [|c a IH]; simpl; intros H; auto.
  destruct (Ascii.eqb_spec c zero) as [->|_].
  - exfalso. apply H. now left.
  - f_equal. apply IH. tauto.
Qed.

Lemma copiedPaths_app e1 e2 :
  copiedPaths (e1 ++ e2) = (copiedPaths e1 ++ copiedPaths e2)%list.
Proof. apply flat_map_app. Qed.

Lemma createdPaths_app e1 e2 :
  createdPaths (e1 ++ e2) = (createdPaths e1 ++ createdPaths e2)%list.
Proof. apply flat_map_app. Qed.

Lemma errorsOf_app e1 e2 :
  errorsOf (e1 ++ e2) = (errorsOf e1 ++ errorsOf e2)%list.
Proof. apply flat_map_app. Qed.

Lemma savedFilePaths_app n1 n2 :
  savedFilePaths (n1 ++ n2) = (savedFilePaths n1 ++ savedFilePaths n2)%list.
Proof. unfold savedFilePaths. now rewrite filter_app, map_app. Qed.

Lemma savedDirectoryPaths_app n1 n2 :
  savedDirectoryPaths (n1 ++ n2)
  = (savedDirectoryPaths n1 ++ savedDirectoryPaths n2)%list.
Proof. unfold savedDirectoryPaths. now rewrite filter_app, map_app. Qed.

Lemma Materialised_no_errors root evs :
  Forall (Materialised root) evs -> errorsOf evs = [].
Proof.
  induction 1 as [|ev evs Hev _ IH]; simpl; auto.
  destruct ev; simpl in *; auto; contradiction.
Qed.

(** What the export of one hit leaves: directories and files under [root],
    a [SavedFile] entry for each file copied, in order, and [SavedDirectory]
    entries for directories that were created. *)
Definition HitSummary (root : string) (evs : list Event) (ents : list Node)
  : Prop :=
  Forall (Materialised root) evs /\
  copiedPaths evs = savedFilePaths ents /\
  incl (savedDirectoryPaths ents) (createdPaths evs).

Lemma HitSummary_nil root : HitSummary root [] [].
Proof. repeat split; auto. intros x []. Qed.

Section Summary.

Variable E : Services.

Lemma PlainPath_Prefix dirPath p path f :
  PlainPath E dirPath p path f -> Prefix dirPath path.
Proof.
  induction 1 as [dirPath p recs c f _ _ _ | dirPath p recs c d path f _ _ _ _ _ IH].
  - exists (separator E ++ getName f). reflexivity.
  - eapply Prefix_trans; [|exact IH].
    exists (separator E ++ getName d). reflexivity.
Qed.

Lemma items_summary dirPath p items :
  Forall (Nested E dirPath p) items ->
  Forall (Materialised dirPath) (map eventOf items) /\
  copiedPaths (map eventOf items) = savedFilePaths (flat_map (entryOf E) items) /\
  savedDirectoryPaths (flat_map (entryOf E) items) = [].
Proof.
  induction 1 as [|item items Hitem _ (IHm & IHc & IHd)].
  - repeat split; auto.
  - destruct item as [path d|path f]; destruct Hitem as [Hkind Hpath];
      apply PlainPath_Prefix in Hpath; simpl.
    + repeat split; auto.
    + rewrite (fileElement_file E f path Hkind).
      unfold savedFilePaths, savedDirectoryPaths in *. simpl.
      repeat split; auto. now f_equal.
Qed.

(** The export of one hit to a folder under [root]. *)
Lemma saveFileHit_summary root fuel folder hit st :
  nulFree root -> Prefix root folder ->
  exists evs ents,
    Effects evs ents st (fst (saveFileHit E fuel folder hit st)) /\
    HitSummary root evs ents.
Proof.
  intros Hroot Hfolder. unfold saveFileHit, bind at 1, fileManager_getFile.
  destruct (getFile E (getObjectID (snd hit))) as [f|msg]; simpl.
  2: { exists [], []. split; [apply Effects_refl | apply HitSummary_nil]. }
  destruct (isDirectory E f) eqn:Hkind.
  - pose proof (saveInterestingDirectory_items E fuel f folder st) as Hi.
    cbv zeta in Hi.
    destruct (createDirectories E (events st) (directoryTarget E f folder)).
    + destruct Hi as (items & He & Hn & _).
      destruct (items_summary Hn) as (Hm & Hc & Hd).
      eexists _, _. split; [exact He|].
      assert (Htarget : Prefix root (directoryTarget E f folder)).
      { eapply Prefix_trans; [exact Hfolder|].
        unfold directoryTarget. eexists. reflexivity. }
      rewrite (fileElement_directory E f _ Hkind).
      unfold HitSummary, savedFilePaths, savedDirectoryPaths in *. simpl.
      split; [|split].
      * constructor; [exact Htarget|].
        eapply Forall_impl; [|exact Hm].
        intros ev. now apply Materialised_weaken.
      * exact Hc.
      * rewrite Hd. intros x [<-|[]]. now left.
    + rewrite Hi. simpl.
      exists [], []. split; [apply Effects_refl | apply HitSummary_nil].
  - unfold saveInterestingFile, bind, fileManager_copyFile, emit, throw.
    destruct (copyFile E (events st) (getId f) _); simpl.
    + rewrite addFileToReport_spec. simpl.
      eexists [_], [_]. split.
      * unfold Effects; simpl. repeat split; auto. repeat constructor.
      * rewrite (fileElement_file E f _ Hkind).
        unfold HitSummary, savedFilePaths, savedDirectoryPaths. simpl.
        split; [|split; [reflexivity | intros x []]].
        constructor; [|constructor]. simpl.
        destruct Hfolder as (r & ->). rewrite (c_str_app _ Hroot).
        apply Prefix_app, Prefix_app, Prefix_refl.
    + exists [], []. split; [apply Effects_refl | apply HitSummary_nil].
Qed.

(** The loop over the hits of a set, to a folder under [root]: beside the
    errors it logs, it behaves as its hits do, and its return code is still
    [OK] at the end only if it was [OK] before and no error was logged. *)
Lemma saveFileHits_summary root fuel folder hits :
  nulFree root -> Prefix root folder ->
  forall st,
    let st' := fst (saveFileHits E fuel folder hits st) in
    exists evs ents,
      events st' = (events st ++ evs)%list /\
      reportDoc st' = addEntries (reportDoc st) ents /\
      Forall (Under root) evs /\ Forall quiet evs /\
      copiedPaths evs = savedFilePaths ents /\
      incl (savedDirectoryPaths ents) (createdPaths evs) /\
      (returnCode st' = returnCode st \/ returnCode st' = FAIL) /\
      (returnCode st' = OK -> returnCode st = OK /\ errorsOf evs = []).
Proof.
  intros Hroot Hfolder.
  induction hits as [|h hits IH]; intros st; cbv zeta.
  - exists [], []. simpl. rewrite app_nil_r, addEntries_nil.
    repeat split; auto. intros x [].
  - rewrite saveFileHits_cons.
    destruct (saveFileHit_summary fuel h st Hroot Hfolder)
      as (e1 & n1 & (He1 & Hd1 & Hr1 & Hq1) & Hm1 & Hc1 & Hi1).
    destruct (Helper_saveFileHit E fuel folder h st) as (_ & Hx).
    assert (Hu1 : Forall (Under root) e1).
    { eapply Forall_impl; [|exact Hm1]. intros; now apply Materialised_Under. }
    pose proof (Materialised_no_errors Hm1) as Hno1.
    destruct (saveFileHit E fuel folder h st) as [st1 [[]|e|]]; simpl in *.
    + destruct (IH st1)
        as (e2 & n2 & He2 & Hd2 & Hu2 & Hq2 & Hc2 & Hi2 & Hrc2 & Hok2).
      exists (e1 ++ e2)%list, (n1 ++ n2)%list.
      rewrite He2, Hd2, He1, Hd1, addEntries_app, app_assoc.
      rewrite copiedPaths_app, savedFilePaths_app, savedDirectoryPaths_app,
        createdPaths_app, errorsOf_app, Hc1, Hc2, Hno1.
      repeat split; auto using Forall_app.
      * apply Forall_app; auto.
      * apply Forall_app; auto.
      * apply incl_app; [apply incl_appl | apply incl_appr]; auto.
      * rewrite <- Hr1. exact Hrc2.
      * rewrite <- Hr1. now apply Hok2.
      * now apply Hok2.
    + destruct (Hx e eq_refl) as (msg & ->).
      destruct (IH (caught st1 msg))
        as (e2 & n2 & He2 & Hd2 & Hu2 & Hq2 & Hc2 & Hi2 & Hrc2 & Hok2).
      exists (e1 ++ LogError msg :: e2)%list, (n1 ++ n2)%list.
      rewrite He2, Hd2. simpl. rewrite He1, Hd1, addEntries_app.
      rewrite <- !app_assoc.
      rewrite copiedPaths_app, savedFilePaths_app, savedDirectoryPaths_app,
        createdPaths_app. simpl. rewrite Hc1, Hc2.
      simpl in Hrc2, Hok2.
      repeat split; auto.
      * apply Forall_app; split; auto. constructor; simpl; auto.
      * apply Forall_app; split; auto. constructor; simpl; auto.
      * apply incl_app; [apply incl_appl | apply incl_appr]; auto.
      * right. destruct Hrc2; auto.
      * match goal with
        | Hok : returnCode _ = OK |- _ =>
            apply Hok2 in Hok as [Hbad _]; discriminate
        end.
      * match goal with
        | Hok : returnCode _ = OK |- _ =>
            apply Hok2 in Hok as [Hbad _]; discriminate
        end.
    + exists e1, n1. repeat split; auto. congruence.
Qed.

End Summary.

Lemma nulFree_empty : nulFree "".
Proof. unfold nulFree, hasChar. simpl. tauto. Qed.

Lemma Prefix_empty s : Prefix "" s.
Proof. now exists s. Qed.

Lemma errorsOf_LogError msgs : errorsOf (map LogError msgs) = msgs.
Proof. induction msgs as [|m msgs IH]; simpl; congruence. Qed.

Section RunSummary.

Variable E : Services.

(** X3. The report written for a file set lists what was saved: its
    [SavedFile] entries record, in order, exactly the paths the files of the
    set were copied to (top-level files and files found in directories
    alike), and each [SavedDirectory] entry records a directory that was
    created. *)
Theorem saveFiles_report_lists_copies :
  forall (fuel : nat) (setName setDescription : string) (hits : FileSetHits)
         (st st' : State),
    saveFiles E fuel setName setDescription hits st = (st', Normal tt) ->
    exists evs ents,
      events st' =
        (events st ++ CreatedDir (outputFolderPath E ++ separator E ++ setName)
           :: evs ++
           [WroteReport
              ((outputFolderPath E ++ separator E ++ setName)
                 ++ separator E ++ setName ++ ".xml")
              [Element "InterestingFileSet"
                 [("name", setName); ("description", setDescription)] ents]])%list /\
      Forall quiet evs /\
      savedFilePaths ents = copiedPaths evs /\
      incl (savedDirectoryPaths ents) (createdPaths evs).
Proof.
  intros fuel setName setDescription hits st st' Hrun.
  rewrite saveFiles_unfold in Hrun.
  destruct (createDirectories E (events st) _); [|discriminate].
  destruct (saveFileHits_summary E fuel hits nulFree_empty
              (Prefix_empty (fileSetFolder E setName))
              (entered E st setName setDescription))
    as (evs & ents & He & Hd & _ & Hq & Hc & Hi & _).
  destruct (saveFileHits E fuel _ hits _) as [st2 [[]|e|]]; try discriminate.
  destruct (openFileStream E (events st2) _); [|discriminate].
  injection Hrun as <-. simpl in *.
  exists evs, ents. rewrite He, Hd, <- !app_assoc. simpl.
  split; [reflexivity|]. split; [exact Hq|].
  split; [symmetry; exact Hc | exact Hi].
Qed.

(** The run writes under [root]: a NUL-free prefix of the output folder. *)
Variable root : string.
Hypothesis root_nulFree : nulFree root.
Hypothesis root_Prefix : Prefix root (outputFolderPath E).

Lemma fileSetFolder_under setName : Prefix root (fileSetFolder E setName).
Proof. unfold fileSetFolder. now apply Prefix_app. Qed.

(** [saveFiles], whatever its outcome. *)
Lemma saveFiles_summary fuel setName setDescription hits st :
  let out := saveFiles E fuel setName setDescription hits st in
  exists evs,
    events (fst out) = (events st ++ evs)%list /\
    Forall (Under root) evs /\
    (returnCode (fst out) = returnCode st \/ returnCode (fst out) = FAIL) /\
    (returnCode (fst out) = OK -> returnCode st = OK /\ errorsOf evs = []).
Proof.
  intros out. subst out. rewrite saveFiles_unfold.
  destruct (createDirectories E (events st) _).
  2: { exists []. simpl. rewrite app_nil_r. repeat split; auto. }
  destruct (saveFileHits_summary E fuel hits root_nulFree
              (fileSetFolder_under setName)
              (entered E st setName setDescription))
    as (evs & ents & He & _ & Hu & _ & _ & _ & Hrc & Hok).
  assert (Hfolder : Under root (CreatedDir (fileSetFolder E setName)))
    by apply fileSetFolder_under.
  destruct (saveFileHits E fuel _ hits _) as [st2 [[]|e|]]; simpl in *.
  - destruct (openFileStream E (events st2) _); simpl.
    + exists (CreatedDir (fileSetFolder E setName) :: evs
              ++ [WroteReport (reportFile E setName) (reportDoc st2)])%list.
      rewrite He, <- !app_assoc. simpl. split; [reflexivity|].
      split; [|split; [exact Hrc|]].
      * constructor; [exact Hfolder|]. apply Forall_app. split; auto.
        constructor; [|constructor]. simpl. unfold reportFile.
        apply Prefix_app. apply fileSetFolder_under.
      * intros Hok'. destruct (Hok Hok') as [H1 H2]. split; auto.
        rewrite errorsOf_app, H2. reflexivity.
    + exists (CreatedDir (fileSetFolder E setName) :: evs).
      rewrite He, <- app_assoc. repeat split; auto; now apply Hok.
  - exists (CreatedDir (fileSetFolder E setName) :: evs).
    rewrite He, <- app_assoc. repeat split; auto; now apply Hok.
  - exists (CreatedDir (fileSetFolder E setName) :: evs).
    rewrite He, <- app_assoc. repeat split; auto; now apply Hok.
Qed.

(** The loop over the file sets, whatever its outcome. *)
Lemma saveFileSets_summary fuel hits sets :
  forall st,
    let out := saveFileSets E fuel sets hits st in
    exists evs,
      events (fst out) = (events st ++ evs)%list /\
      Forall (Under root) evs /\
      (returnCode (fst out) = returnCode st \/ returnCode (fst out) = FAIL) /\
      (returnCode (fst out) = OK -> returnCode st = OK /\ errorsOf evs = []).
Proof.
  induction sets as [|[name description] sets IH]; intros st; cbv zeta.
  - exists []. simpl. rewrite app_nil_r. repeat split; auto.
  - rewrite saveFileSets_cons. simpl fst. simpl snd.
    destruct (saveFiles_summary fuel name description
                (equal_range name hits) st)
      as (e1 & He1 & Hu1 & Hrc1 & Hok1).
    destruct (saveFiles E fuel name description _ st) as [st1 [[]|e|]];
      simpl in *.
    + destruct (IH st1) as (e2 & He2 & Hu2 & Hrc2 & Hok2).
      exists (e1 ++ e2)%list. rewrite He2, He1, app_assoc, errorsOf_app.
      split; [reflexivity|]. split; [apply Forall_app; auto|]. split.
      * destruct Hrc2 as [-> | ->]; auto.
      * intros Hok. destruct (Hok2 Hok) as [H1 H2].
        destruct (Hok1 H1) as [H3 H4]. rewrite H2, H4. auto.
    + exists e1. auto.
    + exists e1. auto.
Qed.

(** The [try] block of [report()], whatever its outcome. *)
Lemma reportBody_summary fuel st :
  let out := reportBody E fuel st in
  exists evs,
    events (fst out) = (events st ++ evs)%list /\
    Forall (Under root) evs /\
    (returnCode (fst out) = returnCode st \/ returnCode (fst out) = FAIL) /\
    (snd out = Normal tt -> returnCode (fst out) = OK ->
     returnCode st = OK /\
     errorsOf evs = errors (groupArtifacts E (getArtifacts E))).
Proof.
  intros out. subst out.
  rewrite reportBody_upTo, reportUpTo_unfold.
  destruct (createDirectories E (events st) _).
  2: { exists []. simpl. rewrite app_nil_r. repeat split; auto; discriminate. }
  match goal with
  | |- context [saveFileSets E fuel ?l ?h ?s] =>
      destruct (saveFileSets_summary fuel h l s)
        as (evs & He & Hu & Hrc & Hok)
  end.
  simpl in He, Hrc, Hok.
  eexists. rewrite He, <- app_assoc. split; [reflexivity|].
  split; [|split; [exact Hrc|]].
  - simpl. constructor; [exact root_Prefix|]. apply Forall_app. split; auto.
    apply Forall_forall. intros ev Hin.
    apply in_map_iff in Hin as (msg & <- & _). exact I.
  - intros _ Hok'. destruct (Hok Hok') as [H1 H2]. split; auto.
    simpl. rewrite errorsOf_app, errorsOf_LogError, H2. apply app_nil_r.
Qed.

End RunSummary.

Section RunProperties.

Variable E : Services.

(** X4. [report()] returns [OK] or [FAIL], never [STOP].  It returns [OK]
    only when its [try] block ran to its end, so that every file set was
    saved, and the only errors it logged are those of the hits without a set
    name: any exception caught during the run makes it return [FAIL]. *)
Theorem report_status :
  forall (fuel : nat) (history evs : list Event) (rc : Status),
    report E fuel history = (evs, Normal rc) ->
    (rc = OK \/ rc = FAIL) /\
    (rc = OK ->
     exists st',
       reportBody E fuel (mkState (history ++ [LogInfo started]) [] OK)
         = (st', Normal tt) /\
       evs = (events st' ++ [LogInfo finished])%list /\
       errorsOf evs
       = (errorsOf history ++ errors (groupArtifacts E (getArtifacts E)))%list).
Proof.
  intros fuel history evs rc Hrun. rewrite report_unfold in Hrun.
  destruct (reportBody_summary E nulFree_empty
              (Prefix_empty (outputFolderPath E)) fuel
              (mkState (history ++ [LogInfo started]) [] OK))
    as (new & He & _ & Hrc & Hok).
  destruct (reportBody E fuel _) as [st' [[]|[msg|msg]|]] eqn:Hbody;
    try discriminate; injection Hrun as <- <-; simpl in *.
  - split; [destruct Hrc; auto|]. intros Hok'. exists st'.
    split; [reflexivity|]. split; [reflexivity|].
    destruct (Hok eq_refl Hok') as [_ Herr].
    rewrite He, !errorsOf_app, Herr. simpl. now rewrite !app_nil_r.
  - split; [auto|discriminate].
Qed.

(** X5. Every directory [report()] creates, every file it copies and every
    report it writes has a path that starts with the output folder path,
    whatever the outcome of the run. *)
Theorem report_stays_under_output_folder :
  forall (fuel : nat) (history : list Event),
    nulFree (outputFolderPath E) ->
    exists new,
      fst (report E fuel history) = (history ++ new)%list /\
      Forall (Under (outputFolderPath E)) new.
Proof.
  intros fuel history Hroot. rewrite report_unfold.
  destruct (reportBody_summary E Hroot (Prefix_refl (outputFolderPath E)) fuel
              (mkState (history ++ [LogInfo started]) [] OK))
    as (new & He & Hu & _).
  assert (Hstart : Forall (Under (outputFolderPath E)) (LogInfo started :: new))
    by (constructor; [exact I | exact Hu]).
  destruct (reportBody E fuel _) as [st' [[]|[msg|msg]|]]; simpl in *;
    rewrite He, <- !app_assoc; simpl.
  - exists (LogInfo started :: new ++ [LogInfo finished])%list.
    split; [reflexivity|]. apply Forall_app with (l1 := _ :: _).
    split; auto. repeat constructor.
  - exists (LogInfo started :: new ++ [LogError msg; LogInfo finished])%list.
    split; [reflexivity|]. apply Forall_app with (l1 := _ :: _).
    split; auto. repeat constructor.
  - exists (LogInfo started :: new). auto.
  - exists (LogInfo started :: new). auto.
Qed.

End RunProperties.

(** ** Runs that succeed, runs that end, runs that are cut short *)

Section Outcomes.

Variable E : Services.

(** The hits of the multimap are hits of the blackboard. *)
Lemma fileSetHits_artifacts name hit :
  In (name, hit) (fileSetHits (groupArtifacts E (getArtifacts E))) ->
  In hit (getArtifacts E).
Proof.
  unfold groupArtifacts.
  destruct (groupArtifacts_fold E (getArtifacts E) (mkGrouping [] [] []))
    as (_ & -> & _).
  simpl. intros Hin. apply fold_insertHit_In in Hin as [[]|Hin].
  apply in_flat_map in Hin as (h & Hh & Hin).
  unfold memberships in Hin. apply in_map_iff in Hin as (attr & [= _ <-] & _).
  exact Hh.
Qed.

Section Success.

Variable rank : N -> nat.
Variable fuel : nat.
Hypothesis tree : DepthBounded E rank.
Hypothesis enough : forall id, rank id < fuel.
Hypothesis mkdir_ok : forall evs path, createDirectories E evs path = Done tt.
Hypothesis copy_ok : forall evs id path, copyFile E evs id path = Done tt.
Hypothesis open_ok : forall evs path, openFileStream E evs path = Done tt.
Hypothesis records_ok : forall p, exists fileRecs, getFileRecords E p = Done fileRecs.
Hypothesis children_ok :
  forall p fileRecs fileRec,
    getFileRecords E p = Done fileRecs -> In fileRec fileRecs ->
    exists file, getFile E fileRec = Done file.
Hypothesis hits_ok :
  forall fileHit, In fileHit (getArtifacts E) ->
                  exists file, getFile E (getObjectID fileHit) = Done file.

Lemma saveDirectoryContents_success :
  forall n dirPath dir st,
    rank (getId dir) < n ->
    snd (saveDirectoryContents E n dirPath dir st) = Normal tt.
Proof.
  induction n as [|n IH]; intros dirPath dir st Hlt; [lia|].
  simpl. unfold bind at 1, imgDB_getFileRecords.
  destruct (records_ok (getId dir)) as (recs & Hrecs). rewrite Hrecs. simpl.
  apply forEach_success. intros fileRec s Hin.
  unfold bind at 1, fileManager_getFile.
  destruct (@children_ok _ _ _ Hrecs Hin) as (f & Hf). rewrite Hf. simpl.
  destruct (isDirectory E f) eqn:Hd.
  - unfold bind, createDirectory, emit. rewrite mkdir_ok.
    apply IH. pose proof (@tree _ _ _ _ Hrecs Hin Hf Hd). lia.
  - unfold bind, fileManager_copyFile, emit. rewrite copy_ok.
    now rewrite addFileToReport_spec.
Qed.

Lemma saveFileHit_success folder hit st :
  In (snd hit) (getArtifacts E) ->
  snd (saveFileHit E fuel folder hit st) = Normal tt.
Proof.
  intros Hin. unfold saveFileHit, bind at 1, fileManager_getFile.
  destruct (@hits_ok _ Hin) as (f & ->). simpl.
  destruct (isDirectory E f).
  - unfold saveInterestingDirectory, bind, createDirectory, emit.
    rewrite mkdir_ok, addFileToReport_spec.
    apply saveDirectoryContents_success. apply enough.
  - unfold saveInterestingFile, bind, fileManager_copyFile, emit.
    rewrite copy_ok. now rewrite addFileToReport_spec.
Qed.

Lemma saveFileHits_success folder hits :
  (forall hit, In hit hits -> In (snd hit) (getArtifacts E)) ->
  forall st,
    snd (saveFileHits E fuel folder hits st) = Normal tt /\
    returnCode (fst (saveFileHits E fuel folder hits st)) = returnCode st.
Proof.
  induction hits as [|h hits IH]; intros Hhits st.
  - auto.
  - rewrite saveFileHits_cons.
    pose proof (saveFileHit_success folder h st (Hhits h (or_introl eq_refl)))
      as Hok.
    destruct (Helper_saveFileHit E fuel folder h st)
      as ((e & n & _ & _ & Hrc & _) & _).
    destruct (saveFileHit E fuel folder h st) as [st1 [[]|x|]];
      simpl in *; try discriminate.
    rewrite <- Hrc. apply IH. intros; apply Hhits; now right.
Qed.

Lemma saveFileSets_success sets :
  forall st,
    snd (saveFileSets E fuel sets
           (fileSetHits (groupArtifacts E (getArtifacts E))) st) = Normal tt /\
    returnCode (fst (saveFileSets E fuel sets
           (fileSetHits (groupArtifacts E (getArtifacts E))) st)) = returnCode st.
Proof.
  induction sets as [|[name description] sets IH]; intros st.
  - auto.
  - rewrite saveFileSets_cons, saveFiles_unfold. simpl fst. simpl snd.
    rewrite mkdir_ok.
    match goal with
    | |- context [saveFileHits E fuel ?f ?h ?s] =>
        destruct (saveFileHits_success f h) with (st := s) as [Hn Hrc]
    end.
    { intros [k hit] Hin. apply filter_In in Hin as [Hin _].
      simpl. eapply fileSetHits_artifacts; eauto. }
    destruct (saveFileHits E fuel _ _ _) as [st2 r]. simpl in Hn, Hrc.
    subst r. rewrite open_ok.
    match goal with
    | |- context [saveFileSets E fuel sets ?h ?s] =>
        destruct (IH s) as [Hn' Hrc']
    end.
    split; [exact Hn'|]. rewrite Hrc'. exact Hrc.
Qed.

(** X6. When the image database describes a tree within the fuel, every file
    of a hit and of a directory can be fetched, and every directory
    creation, file copy and report opening succeeds, [report()] runs its
    [try] block to the end and returns [OK]. *)
Theorem report_succeeds :
  forall history : list Event,
  exists st',
    reportBody E fuel (mkState (history ++ [LogInfo started]) [] OK)
      = (st', Normal tt) /\
    report E fuel history = ((events st' ++ [LogInfo finished])%list, Normal OK).
Proof.
  intros history. rewrite report_unfold, reportBody_upTo, reportUpTo_unfold.
  rewrite mkdir_ok.
  match goal with
  | |- context [saveFileSets E fuel ?l ?h ?s] =>
      destruct (saveFileSets_success l s) as [Hn Hrc]
  end.
  destruct (saveFileSets E fuel _ _ _) as [st' r]. simpl in Hn, Hrc.
  subst r. exists st'. split; [reflexivity|]. now rewrite Hrc.
Qed.

End Success.

Lemma saveFileSets_fuel rank fuel hits sets :
  DepthBounded E rank -> (forall id, rank id < fuel) ->
  forall st, snd (saveFileSets E fuel sets hits st) <> OutOfFuel.
Proof.
  intros Htree Hfuel.
  induction sets as [|[name description] sets IH]; intros st.
  - discriminate.
  - rewrite saveFileSets_cons, saveFiles_unfold. simpl fst. simpl snd.
    destruct (createDirectories E (events st) _); [|discriminate].
    match goal with
    | |- context [saveFileHits E fuel ?f ?h ?s] =>
        pose proof (saveFileHits_Normal f h Htree Hfuel s) as Hn
    end.
    destruct (saveFileHits E fuel _ _ _) as [st2 r]. simpl in Hn. subst r.
    destruct (openFileStream E (events st2) _); [|discriminate].
    apply IH.
Qed.

(** X7. When the image database describes a tree within the fuel,
    [report()] ends: it returns [OK] or [FAIL], or lets a Poco exception
    escape; no [TskException] ever leaves it. *)
Theorem report_ends :
  forall (rank : N -> nat) (fuel : nat) (history : list Event),
    DepthBounded E rank -> (forall id, rank id < fuel) ->
    snd (report E fuel history) = Normal OK \/
    snd (report E fuel history) = Normal FAIL \/
    exists msg, snd (report E fuel history) = Throw (PocoException msg).
Proof.
  intros rank fuel history Htree Hfuel. rewrite report_unfold.
  destruct (reportBody_summary E nulFree_empty
              (Prefix_empty (outputFolderPath E)) fuel
              (mkState (history ++ [LogInfo started]) [] OK))
    as (_ & _ & _ & Hrc & _).
  assert (Hfuel' : snd (reportBody E fuel
                          (mkState (history ++ [LogInfo started]) [] OK))
                   <> OutOfFuel).
  { rewrite reportBody_upTo, reportUpTo_unfold.
    destruct (createDirectories E _ _); [|discriminate].
    now apply saveFileSets_fuel with (rank := rank). }
  destruct (reportBody E fuel _) as [st' [[]|[msg|msg]|]]; simpl in *.
  - destruct Hrc as [-> | ->]; auto.
  - auto.
  - right. right. eauto.
  - congruence.
Qed.

End Outcomes.

Section Failures.

Variable E : Services.

(** X8. When the report of a file set cannot be opened for writing, the Poco
    exception is caught nowhere: it leaves [saveFiles] and [report()], which
    returns no status and logs neither the error nor the end of the run; the
    file sets after that one are not saved. *)
Theorem report_write_failure :
  forall (fuel : nat) (history : list Event) (before after : FileSets)
         (name description : string) (st st2 : State) (msg : string),
    fileSets (groupArtifacts E (getArtifacts E))
      = (before ++ (name, description) :: after)%list ->
    reportUpTo E fuel before (mkState (history ++ [LogInfo started]) [] OK)
      = (st, Normal tt) ->
    createDirectories E (events st)
      (outputFolderPath E ++ separator E ++ name) = Done tt ->
    saveFileHits E fuel (outputFolderPath E ++ separator E ++ name)
      (equal_range name (fileSetHits (groupArtifacts E (getArtifacts E))))
      (mkState (events st ++ [CreatedDir (outputFolderPath E ++ separator E ++ name)])
         [Element "InterestingFileSet"
            [("name", name); ("description", description)] []]
         (returnCode st))
      = (st2, Normal tt) ->
    openFileStream E (events st2)
      ((outputFolderPath E ++ separator E ++ name)
         ++ separator E ++ name ++ ".xml") = Failed msg ->
    report E fuel history = (events st2, Throw (PocoException msg)).
Proof.
  intros fuel history before after name description st st2 msg
    Hsets Hbefore Hdir Hhits Hopen.
  rewrite report_unfold, reportBody_upTo, Hsets.
  rewrite reportUpTo_unfold in *.
  destruct (createDirectories E _ (outputFolderPath E)); [|discriminate].
  rewrite saveFileSets_app, Hbefore, saveFileSets_cons, saveFiles_unfold.
  simpl fst. simpl snd. unfold fileSetFolder, reportFile, entered, reportRoot.
  unfold fileSetFolder. rewrite Hdir, Hhits, Hopen. reflexivity.
Qed.

(** The loop of [saveDirectoryContents] over the records of a directory,
    with [fuel] left for the subdirectories. *)
Definition saveDirectoryRecords (fuel : nat) (dirPath : string)
  (fileRecs : list N) : M unit :=
  forEach fileRecs (fun fileRec =>
    file <- fileManager_getFile E fileRec ;;
    if isDirectory E file then
      createDirectory E (dirPath ++ separator E ++ getName file) ;;
      saveDirectoryContents E fuel (dirPath ++ separator E ++ getName file) file
    else
      fileManager_copyFile E (getId file) (dirPath ++ separator E ++ getName file) ;;
      addFileToReport E file (dirPath ++ separator E ++ getName file)).

Lemma saveDirectoryContents_records fuel dirPath dir :
  saveDirectoryContents E (S fuel) dirPath dir =
  (fileRecs <- imgDB_getFileRecords E (getId dir) ;;
   saveDirectoryRecords fuel dirPath fileRecs).
Proof. reflexivity. Qed.

(** X9. Inside a directory there is no isolation: when saving one of its
    entries throws (a file that cannot be fetched or copied, a subdirectory
    that cannot be created, or anything thrown deeper down), the descent
    into the directory ends there with that exception, in the state the
    failing entry left, and the entries after it are neither created nor
    copied. *)
Theorem saveDirectoryContents_stops_at_failure :
  forall (fuel : nat) (dirPath : string) (dir : TskFile)
         (before after : list N) (fileRec : N) (st s1 s2 : State) (e : Exn),
    getFileRecords E (getId dir) = Done (before ++ fileRec :: after)%list ->
    saveDirectoryRecords fuel dirPath before st = (s1, Normal tt) ->
    saveDirectoryRecords fuel dirPath [fileRec] s1 = (s2, Throw e) ->
    saveDirectoryContents E (S fuel) dirPath dir st = (s2, Throw e).
Proof.
  intros fuel dirPath dir before after fileRec st s1 s2 e Hrecs Hbefore Hfail.
  rewrite saveDirectoryContents_records.
  unfold bind at 1, imgDB_getFileRecords. rewrite Hrecs. simpl.
  unfold saveDirectoryRecords in *.
  rewrite forEach_app, Hbefore.
  change (fileRec :: after) with ([fileRec] ++ after)%list.
  rewrite forEach_app, Hfail. reflexivity.
Qed.

End Failures.

(** ** The grouping, once more *)

Section GroupingProperties.

Variable E : Services.


(** X11. Hits without a set name never make the run fail: when no hit of
    the blackboard has a set name attribute (in particular when there is no
    hit) and the output folder can be created, [report()] creates the output
    folder, logs one error per hit, saves nothing and returns [OK]. *)
Theorem report_without_valid_hits :
  forall (fuel : nat) (history : list Event),
    (forall fileHit attr,
        In fileHit (getArtifacts E) -> In attr (getAttributes fileHit) ->
        getAttributeTypeID attr <> TSK_SET_NAME E) ->
    createDirectories E (history ++ [LogInfo started]) (outputFolderPath E)
      = Done tt ->
    report E fuel history =
    ((history ++ LogInfo started :: CreatedDir (outputFolderPath E)
        :: map (fun fileHit => LogError (missingSetNameMessage fileHit))
               (getArtifacts E)
        ++ [LogInfo finished])%list,
     Normal OK).
Proof.
  intros fuel history Hbad Hroot.
  rewrite report_unfold, reportBody_upTo, reportUpTo_unfold. simpl.
  rewrite Hroot.
  assert (Hg : fileSets (groupArtifacts E (getArtifacts E)) = [] /\
               errors (groupArtifacts E (getArtifacts E))
               = map missingSetNameMessage (getArtifacts E)).
  { unfold groupArtifacts.
    destruct (groupArtifacts_fold E (getArtifacts E) (mkGrouping [] [] []))
      as (-> & _ & ->).
    simpl. clear Hroot.
    induction (getArtifacts E) as [|hit arts IH]; [auto|].
    assert (Hnone : filter (isSetName E) (getAttributes hit) = []).
    { apply invalid_no_set_name. intros attr Hin.
      apply (Hbad hit attr); auto. now left. }
    destruct IH as [IHs IHe].
    { intros h a Hh. apply Hbad. now right. }
    simpl. unfold descriptions at 1, valid at 1. rewrite Hnone. simpl.
    split; [exact IHs|].
    assert (Hex : existsb (isSetName E) (getAttributes hit) = false).
    { destruct (existsb (isSetName E) (getAttributes hit)) eqn:Hex; auto.
      apply existsb_exists in Hex as (attr & Hin & Hset).
      exfalso. apply (Hbad hit attr); auto; [now left | now apply N.eqb_eq]. }
    rewrite Hex. simpl. now f_equal. }
  destruct Hg as [-> ->]. simpl.
  rewrite map_map, <- !app_assoc. reflexivity.
Qed.

End GroupingProperties.

(** ** Initialisation *)

(** Module initialization function.  It receives the output folder path as a
    C string, [None] standing for a null pointer, and caches it in
    [outputFolderPath]; without a path it takes the folder InterestingFiles
    of the output directory of the system, whose path is the expansion of
    a macro by the framework's [ExpandSystemPropertyMacros].  The result is
    the new value of [outputFolderPath] and the status returned. *)
Definition initialize (ExpandSystemPropertyMacros : string -> string)
  (separator : string) (arguments : option string) (outputFolderPath : string)
  : string * Status :=
  let outputFolderPath := "" in
  let outputFolderPath :=
    match arguments with
    | Some args => c_str args
    | None => outputFolderPath
    end in
  let outputFolderPath :=
    if String.eqb outputFolderPath "" then
      ExpandSystemPropertyMacros ("#OUT_DIR#" ++ separator ++ "InterestingFiles")
    else outputFolderPath in
  (outputFolderPath, OK).

(** X12. [initialize()] forgets the path of an earlier call: after two calls
    the cached path is the one the second call alone gives.  A null pointer
    and an empty string are the same request for the default folder, a
    non-empty argument is taken as it is, the status is [OK], and the cached
    path is empty only if the expansion of the default is. *)
Theorem initialize_resets :
  forall (expand : string -> string) (separator : string)
         (first second : option string) (cached : string),
    let default := expand ("#OUT_DIR#" ++ separator ++ "InterestingFiles") in
    initialize expand separator second
      (fst (initialize expand separator first cached))
      = initialize expand separator second cached /\
    initialize expand separator None cached
      = initialize expand separator (Some "") cached /\
    initialize expand separator None cached = (default, OK) /\
    (forall args, c_str args <> "" ->
        initialize expand separator (Some args) cached = (c_str args, OK)) /\
    (default <> "" -> fst (initialize expand separator second cached) <> "").
Proof.
  intros expand separator first second cached default.
  unfold initialize. repeat split.
  - intros args Hargs.
    destruct (String.eqb_spec (c_str args) ""); [contradiction|reflexivity].
  - intros Hdefault. simpl.
    destruct second as [args|]; simpl; auto.
    destruct (String.eqb_spec (c_str args) ""); auto.
Qed.

(** ** The further properties on the sample case *)

Module Cases.

Import Sample.

Open Scope N_scope.

Definition report5 : TskFile := mkFile 5 "report.txt" 1 "/img/a/report.txt" "".
Definition report9 : TskFile := mkFile 9 "report.txt" 1 "/img/b/report.txt" "".
(** X1, on the sample: two files named report.txt. *)
Lemma saveInterestingFile_no_collision_witness :
  nulFree (getName report5) /\ nulFree (getName report9) /\
  nulFree "out/setA" /\
  exists path1 path2,
    events (mkState [CopiedFile 5 "out/setA/report_5.txt"] [] OK)
      = (events idle ++ [CopiedFile (getId report5) path1])%list /\
    events (mkState [CopiedFile 9 "out/setA/report_9.txt"] [] OK)
      = (events idle ++ [CopiedFile (getId report9) path2])%list /\
    (path1 = path2 ->
     getName report5 = getName report9 /\ getId report5 = getId report9).
Proof.
  split; [exact nulFree_report_txt|]. split; [exact nulFree_report_txt|].
  split; [exact nulFree_out_setA|].
  exact (@saveInterestingFile_no_collision allGood report5 report9 "out/setA"
           idle idle _ _ nulFree_report_txt nulFree_report_txt
           nulFree_out_setA eq_refl eq_refl).
Defined.

Definition photosSaved : list Event :=
  Eval vm_compute in
    events (fst (saveInterestingDirectory allGood 5 photos "out/setA" idle)).

(** X2, on the sample: the directory Photos, saved twice. *)
Lemma saveInterestingDirectory_no_collision_witness :
  events (fst (saveInterestingDirectory allGood 5 photos "out/setA" idle))
    = (events idle ++ CreatedDir "out/setA/Photos_10/Photos" :: tl photosSaved)%list /\
  getName photos = getName photos /\ getId photos = getId photos.
Proof.
  assert (H : events (fst (saveInterestingDirectory allGood 5 photos "out/setA" idle))
              = (events idle ++ CreatedDir "out/setA/Photos_10/Photos"
                   :: tl photosSaved)%list) by reflexivity.
  split; [exact H|].
  exact (@saveInterestingDirectory_no_collision allGood 5 photos photos
           "out/setA" idle idle _ _ _ _ H H eq_refl).
Defined.

Definition setAHits : FileSetHits :=
  [("setA", hit99); ("setA", hit101); ("setA", hit103)].

Definition setASaved : State :=
  Eval vm_compute in
    fst (saveFiles allGood 5 "setA" "desc A" setAHits
           (mkState [CreatedDir "out"] [] OK)).

(** X3, on the sample: the report of setA. *)
Lemma saveFiles_report_lists_copies_witness :
  saveFiles allGood 5 "setA" "desc A" setAHits (mkState [CreatedDir "out"] [] OK)
    = (setASaved, Normal tt) /\
  exists evs ents,
    events setASaved
      = ([CreatedDir "out"] ++ CreatedDir "out/setA"
           :: evs ++
           [WroteReport "out/setA/setA.xml"
              [Element "InterestingFileSet"
                 [("name", "setA"); ("description", "desc A")] ents]])%list /\
    savedFilePaths ents = copiedPaths evs.
Proof.
  assert (H : saveFiles allGood 5 "setA" "desc A" setAHits
                (mkState [CreatedDir "out"] [] OK) = (setASaved, Normal tt))
    by (vm_compute; reflexivity).
  split; [exact H|].
  destruct (@saveFiles_report_lists_copies allGood 5 "setA" "desc A" setAHits
              (mkState [CreatedDir "out"] [] OK) setASaved H)
    as (evs & ents & He & _ & Hc & _).
  exists evs, ents. split; [exact He | exact Hc].
Defined.

Definition sampleTrace : list Event :=
  Eval vm_compute in fst (report allGood 5 []).

Lemma sample_report : report allGood 5 [] = (sampleTrace, Normal OK).
Proof. vm_compute. reflexivity. Qed.

(** X4, on the sample: a run that returns OK. *)
Lemma report_status_witness :
  report allGood 5 [] = (sampleTrace, Normal OK) /\
  errorsOf sampleTrace = [missingSetNameMessage hit102].
Proof.
  split; [exact sample_report|].
  destruct (@report_status allGood 5 [] sampleTrace OK sample_report)
    as (_ & Hok).
  destruct (Hok eq_refl) as (st' & _ & _ & Herr). exact Herr.
Defined.

Lemma nulFree_out : nulFree (outputFolderPath allGood).
Proof. unfold nulFree, hasChar. simpl. intuition discriminate. Qed.

(** X5, on the sample: everything is under "out". *)
Lemma report_stays_under_output_folder_witness :
  nulFree (outputFolderPath badNestedFile) /\
  exists new,
    fst (report badNestedFile 5 []) = ([] ++ new)%list /\
    Forall (Under "out") new.
Proof.
  split; [exact nulFree_out|].
  exact (@report_stays_under_output_folder badNestedFile 5 [] nulFree_out).
Defined.

(** X6, on the sample: nothing fails, the run returns OK. *)
Lemma report_succeeds_witness :
  DepthBounded allGood rank /\ (forall id, (rank id < 5)%nat) /\
  (forall evs path, createDirectories allGood evs path = Done tt) /\
  (forall evs id path, copyFile allGood evs id path = Done tt) /\
  (forall evs path, openFileStream allGood evs path = Done tt) /\
  snd (report allGood 5 []) = Normal OK.
Proof.
  split; [exact (@sample_DepthBounded _ _)|]. split; [exact rank_bounded|].
  split; [reflexivity|]. split; [reflexivity|]. split; [reflexivity|].
  destruct (@report_succeeds allGood rank 5%nat (@sample_DepthBounded _ _)
              rank_bounded (fun _ _ => eq_refl) (fun _ _ _ => eq_refl)
              (fun _ _ => eq_refl) (fun p => ex_intro _ _ eq_refl)
              sample_children sample_hits [])
    as (st' & _ & Hrun).
  rewrite Hrun. reflexivity.
Defined.

(** X7, on the sample: a run with a failing copy ends, with FAIL. *)
Lemma report_ends_witness :
  DepthBounded badNestedFile rank /\ (forall id, (rank id < 5)%nat) /\
  (snd (report badNestedFile 5 []) = Normal OK \/
   snd (report badNestedFile 5 []) = Normal FAIL \/
   exists msg, snd (report badNestedFile 5 []) = Throw (PocoException msg)).
Proof.
  split; [exact (@sample_DepthBounded _ _)|]. split; [exact rank_bounded|].
  exact (@report_ends badNestedFile rank 5%nat []
           (@sample_DepthBounded _ _) rank_bounded).
Defined.

(** The sample with a disk on which the report of setB cannot be opened. *)
Definition noReportB : Services :=
  mkServices "/" "out" "0x42f1d0" 38 2 files records artifacts
    (fun _ _ => Done tt) (fun _ _ _ => Done tt)
    (fun _ path =>
       if String.eqb path "out/setB/setB.xml" then Failed "disk full"
       else Done tt).

Definition beforeSetB : State :=
  Eval vm_compute in
    fst (reportUpTo noReportB 5 [("setA", "desc A")]
           (mkState [LogInfo started] [] OK)).

Definition inSetB : State :=
  Eval vm_compute in
    fst (saveFileHits noReportB 5 "out/setB" [("setB", hit100)]
           (mkState (events beforeSetB ++ [CreatedDir "out/setB"])
              [reportRoot "setB" "desc B"] (returnCode beforeSetB))).

(** X8, on the sample: the report of setB cannot be written. *)
Lemma report_write_failure_witness :
  reportUpTo noReportB 5 [("setA", "desc A")]
    (mkState ([] ++ [LogInfo started]) [] OK) = (beforeSetB, Normal tt) /\
  openFileStream noReportB (events inSetB) "out/setB/setB.xml"
    = Failed "disk full" /\
  report noReportB 5 [] = (events inSetB, Throw (PocoException "disk full")).
Proof.
  assert (H1 : fileSets (groupArtifacts noReportB (getArtifacts noReportB))
               = ([("setA", "desc A")] ++ ("setB", "desc B")
                    :: [("setC", "desc C")])%list) by reflexivity.
  assert (H2 : reportUpTo noReportB 5 [("setA", "desc A")]
                 (mkState ([] ++ [LogInfo started]) [] OK)
               = (beforeSetB, Normal tt)) by (vm_compute; reflexivity).
  assert (H3 : createDirectories noReportB (events beforeSetB)
                 (outputFolderPath noReportB ++ separator noReportB ++ "setB")
               = Done tt) by reflexivity.
  assert (H4 : saveFileHits noReportB 5
                 (outputFolderPath noReportB ++ separator noReportB ++ "setB")
                 (equal_range "setB"
                    (fileSetHits (groupArtifacts noReportB (getArtifacts noReportB))))
                 (mkState
                    (events beforeSetB
                       ++ [CreatedDir (outputFolderPath noReportB
                                         ++ separator noReportB ++ "setB")])
                    [Element "InterestingFileSet"
                       [("name", "setB"); ("description", "desc B")] []]
                    (returnCode beforeSetB))
               = (inSetB, Normal tt)) by (vm_compute; reflexivity).
  assert (H5 : openFileStream noReportB (events inSetB)
                 ((outputFolderPath noReportB ++ separator noReportB ++ "setB")
                    ++ separator noReportB ++ "setB" ++ ".xml")
               = Failed "disk full") by reflexivity.
  split; [exact H2|]. split; [exact H5|].
  exact (@report_write_failure noReportB 5 [] [("setA", "desc A")]
           [("setC", "desc C")] "setB" "desc B" beforeSetB inSetB "disk full"
           H1 H2 H3 H4 H5).
Defined.

(** The sample with a file of Photos that cannot be copied. *)
Definition badFirstFile : Services := env (fun _ => false) (N.eqb 11).

(** X9, on the sample: a.jpg cannot be copied, and the subdirectory listed
    after it is not created. *)
Lemma saveDirectoryContents_stops_at_failure_witness :
  getFileRecords badFirstFile (getId photos) = Done ([] ++ 11 :: [12])%list /\
  saveDirectoryRecords badFirstFile 4 "out/setA/Photos_10/Photos" [] inSetA
    = (inSetA, Normal tt) /\
  saveDirectoryRecords badFirstFile 4 "out/setA/Photos_10/Photos" [11] inSetA
    = (inSetA, Throw (TskException "read error")) /\
  saveDirectoryContents badFirstFile 5 "out/setA/Photos_10/Photos" photos inSetA
    = (inSetA, Throw (TskException "read error")).
Proof.
  assert (H1 : getFileRecords badFirstFile (getId photos)
               = Done ([] ++ 11 :: [12])%list) by reflexivity.
  assert (H2 : saveDirectoryRecords badFirstFile 4 "out/setA/Photos_10/Photos"
                 [] inSetA = (inSetA, Normal tt)) by reflexivity.
  assert (H3 : saveDirectoryRecords badFirstFile 4 "out/setA/Photos_10/Photos"
                 [11] inSetA = (inSetA, Throw (TskException "read error")))
    by reflexivity.
  split; [exact H1|]. split; [exact H2|]. split; [exact H3|].
  exact (@saveDirectoryContents_stops_at_failure badFirstFile 4
           "out/setA/Photos_10/Photos" photos [] [12] 11 inSetA inSetA inSetA
           (TskException "read error") H1 H2 H3).
Defined.

(** The sample with a blackboard that holds the hit without a set name
    only. *)
Definition onlyMalformed : Services :=
  mkServices "/" "out" "0x42f1d0" 38 2 files records [hit102]
    (fun _ _ => Done tt) (fun _ _ _ => Done tt) (fun _ _ => Done tt).

Lemma onlyMalformed_no_set_name :
  forall fileHit attr,
    In fileHit (getArtifacts onlyMalformed) -> In attr (getAttributes fileHit) ->
    getAttributeTypeID attr <> TSK_SET_NAME onlyMalformed.
Proof. intros fileHit attr [<-|[]] [<-|[]]. discriminate. Qed.

(** X11, on the sample: one hit, without a set name. *)
Lemma report_without_valid_hits_witness :
  createDirectories onlyMalformed ([] ++ [LogInfo started])
    (outputFolderPath onlyMalformed) = Done tt /\
  report onlyMalformed 5 [] =
  ([LogInfo started; CreatedDir "out";
    LogError (missingSetNameMessage hit102); LogInfo finished],
   Normal OK).
Proof.
  split; [reflexivity|].
  exact (@report_without_valid_hits onlyMalformed 5 []
           onlyMalformed_no_set_name eq_refl).
Defined.

End Cases.
